(** * Animal classification service (main.py): a shallow embedding

    The service forwards an uploaded image to a hosted inference provider
    (first a species question, then a breed model for dogs and cats) and
    reshapes the answers into [{classified, unclassified}].

    The embedding follows main.py function by function:
    - Python text is a [string], one [ascii] per code point (the range
      U+0000..U+00FF), with [str.strip], [str.lower] and [in] written out;
    - what the provider returns is a JSON-like Python value, [pyval];
    - exceptions, the provider (an oracle with a state of its own), the log of
      provider calls and standard output (an oracle as well: a [print] can
      raise) are threaded through a state and error monad [M], so that
      try/except is a combinator of the model. *)

From Stdlib Require Import List String Ascii Bool Arith NArith ZArith QArith Lia.
From Stdlib Require Import Strings.Byte.
Import ListNotations.

#[local] Set Warnings "-register-all".
Local Close Scope Q_scope.
Local Open Scope list_scope.
Local Open Scope string_scope.

(* ================================================================== *)
(** ** Python text *)

(** [str.isspace] on the code points below 256: TAB..CR, FS..US, space,
    NEL (U+0085) and the no-break space (U+00A0).  These are the code points
    [str.strip()] removes when it is called without argument. *)
Definition isspace (c : ascii) : bool :=
  let n := nat_of_ascii c in
  (((9 <=? n) && (n <=? 13)) || ((28 <=? n) && (n <=? 32))
   || (n =? 133) || (n =? 160))%nat.

(** [str.lower] on one code point below 256: A..Z and the upper-case
    Latin-1 letters U+00C0..U+00DE (the multiplication sign U+00D7 apart)
    move up by 32. *)
Definition lower_char (c : ascii) : ascii :=
  let n := nat_of_ascii c in
  if (((65 <=? n) && (n <=? 90))
      || ((192 <=? n) && (n <=? 222) && negb (n =? 215)))%nat
  then ascii_of_nat (n + 32) else c.

(** [s.lower()] *)
Fixpoint lower (s : string) : string :=
  match s with
  | EmptyString => EmptyString
  | String c s' => String (lower_char c) (lower s')
  end.

(** [s.lstrip()] *)
Fixpoint lstrip (s : string) : string :=
  match s with
  | EmptyString => EmptyString
  | String c s' => if isspace c then lstrip s' else s
  end.

(** [s.rstrip()] *)
Fixpoint rstrip (s : string) : string :=
  match s with
  | EmptyString => EmptyString
  | String c s' =>
      match rstrip s' with
      | EmptyString => if isspace c then EmptyString else String c EmptyString
      | r => String c r
      end
  end.

(** [s.strip()] *)
Definition strip (s : string) : string := rstrip (lstrip s).

(** [s.startswith(sub)] *)
Fixpoint startswith (sub s : string) : bool :=
  match sub with
  | EmptyString => true
  | String a sub' =>
      match s with
      | EmptyString => false
      | String b s' => Ascii.eqb a b && startswith sub' s'
      end
  end.

(** [sub in s] for two strings: [sub] starts at some position of [s]. *)
Fixpoint contains (sub s : string) : bool :=
  startswith sub s
  || match s with
     | EmptyString => false
     | String _ s' => contains sub s'
     end.

(** [s.split(sep)] for a separator of one character: the pieces between the
    occurrences of [sep], never an empty list. *)
Fixpoint split (sep : ascii) (s : string) : list string :=
  match s with
  | EmptyString => [EmptyString]
  | String c s' =>
      if Ascii.eqb c sep then EmptyString :: split sep s'
      else match split sep s' with
           | [] => [String c EmptyString]
           | p :: ps => String c p :: ps
           end
  end.

(** No occurrence of the character [c] in [s]. *)
Fixpoint free_of (c : ascii) (s : string) : bool :=
  match s with
  | EmptyString => true
  | String a s' => negb (Ascii.eqb a c) && free_of c s'
  end.

(* ================================================================== *)
(** ** Exceptions and results *)

(** The instances of [Exception] the program can meet: the three the
    interpreter raises on ill-shaped values, and whatever else an upload or
    the provider's client raises (class name and message). *)
Inductive exn : Type :=
| AttributeError
| TypeError
| KeyError
| IndexError
| OtherError (cls msg : string).

Inductive result (A : Type) : Type :=
| Ok (a : A)
| Raise (e : exn).
Arguments Ok {A} a.
Arguments Raise {A} e.

(* ================================================================== *)
(** ** Python values returned by the provider *)

(** JSON as the provider's client hands it over: [None], booleans, numbers,
    text, lists, and objects with text keys (in their order). *)
Inductive pyval : Type :=
| PNone
| PBool (b : bool)
| PNum (q : Q)
| PStr (s : string)
| PList (l : list pyval)
| PDict (d : list (string * pyval)).

(** [bool(v)] *)
Definition truthy (v : pyval) : bool :=
  match v with
  | PNone => false
  | PBool b => b
  | PNum q => negb (Qeq_bool q 0)
  | PStr s => negb (s =? "")
  | PList l => match l with [] => false | _ :: _ => true end
  | PDict d => match d with [] => false | _ :: _ => true end
  end.

(** [len(v)]; a value without length raises [TypeError]. *)
Definition py_len (v : pyval) : result nat :=
  match v with
  | PStr s => Ok (String.length s)
  | PList l => Ok (List.length l)
  | PDict d => Ok (List.length d)
  | PNone | PBool _ | PNum _ => Raise TypeError
  end.

(** Lookup of a text key in a JSON object. *)
Fixpoint assoc (k : string) (d : list (string * pyval)) : option pyval :=
  match d with
  | [] => None
  | (k', v) :: d' => if k' =? k then Some v else assoc k d'
  end.

(** [v[0]]: the first element of a list, the first character of a text;
    on an object the key [0] is absent (its keys are text); other values
    are not subscriptable. *)
Definition getitem_0 (v : pyval) : result pyval :=
  match v with
  | PList l => match l with [] => Raise IndexError | x :: _ => Ok x end
  | PStr s => match s with
              | EmptyString => Raise IndexError
              | String c _ => Ok (PStr (String c EmptyString))
              end
  | PDict _ => Raise KeyError
  | PNone | PBool _ | PNum _ => Raise TypeError
  end.

(** [v['k']] for a text key: defined on objects only; a list or a text
    indexed by a text raises [TypeError], like a value that is not
    subscriptable. *)
Definition getitem_key (v : pyval) (k : string) : result pyval :=
  match v with
  | PDict d => match assoc k d with Some x => Ok x | None => Raise KeyError end
  | PNone | PBool _ | PNum _ | PStr _ | PList _ => Raise TypeError
  end.

(** A method of [str] called on [v] ([v.strip()]): any other value has no
    such attribute. *)
Definition as_str (v : pyval) : result string :=
  match v with
  | PStr s => Ok s
  | _ => Raise AttributeError
  end.

(** [l[-1]] on a Python list of texts. *)
Fixpoint getitem_last (l : list string) : result string :=
  match l with
  | [] => Raise IndexError
  | [x] => Ok x
  | _ :: l' => getitem_last l'
  end.

(* ================================================================== *)
(** ** base64 and the embedded image (main.py lines 101-102, 152-153) *)

Definition b64_alphabet : string :=
  "ABCDEFGHIJKLMNOPQRSTUVWXYZabcdefghijklmnopqrstuvwxyz0123456789+/".

(** The character of a 6-bit group. *)
Definition b64_char (n : N) : ascii :=
  match String.get (N.to_nat n) b64_alphabet with
  | Some c => c
  | None => "="%char
  end.

(** [base64.b64encode(bs).decode("utf-8")]: three bytes give four
    characters, a last group of one or two bytes is padded with [=]. *)
Fixpoint b64encode (bs : list byte) : string :=
  match bs with
  | [] => ""
  | [a] =>
      let x := Byte.to_N a in
      String (b64_char (x / 4))
        (String (b64_char ((x mod 4) * 16)) "==")
  | [a; b] =>
      let x := Byte.to_N a in
      let y := Byte.to_N b in
      String (b64_char (x / 4))
        (String (b64_char ((x mod 4) * 16 + y / 16))
           (String (b64_char ((y mod 16) * 4)) "="))
  | a :: b :: c :: rest =>
      let x := Byte.to_N a in
      let y := Byte.to_N b in
      let z := Byte.to_N c in
      String (b64_char (x / 4))
        (String (b64_char ((x mod 4) * 16 + y / 16))
           (String (b64_char ((y mod 16) * 4 + z / 64))
              (String (b64_char (z mod 64)) (b64encode rest))))
  end%N.

(** An upload as the handlers use it: what [await file.read()] gives (the
    bytes, or the exception it raises) and [file.content_type], which is
    [None] when the part declares no type. *)
Record UploadFile : Type := {
  read : result (list byte);
  content_type : option string
}.

(** [file.content_type.split('/')[-1]]: [None] has no [split]. *)
Definition content_subtype (ct : option string) : result string :=
  match ct with
  | None => Raise AttributeError
  | Some s => getitem_last (split "/" s)
  end.

(** Lines 98-102 of [predict], the same as lines 149-153 of
    [batch_predict]:
<<
   image_content = await file.read()
   encoded_image = base64.b64encode(image_content).decode("utf-8")
   base64_image = f"data:image/{file.content_type.split('/')[-1]};base64,{encoded_image}"
>> *)
Definition base64_image (file : UploadFile) : result string :=
  match read file with
  | Raise e => Raise e
  | Ok image_content =>
      let encoded_image := b64encode image_content in
      match content_subtype (content_type file) with
      | Raise e => Raise e
      | Ok sub => Ok ("data:image/" ++ sub ++ ";base64," ++ encoded_image)
      end
  end.

(* ================================================================== *)
(** ** The result: breed records in a dict, placeholders in a list *)

(** What [classify_breed] returns when it finds a breed:
    [{"breed": breed, "confidence": confidence}]. *)
Record BreedInfo : Type := {
  bi_breed : pyval;
  bi_confidence : pyval
}.

(** One entry of a [classified] list:
    [{"confidence": ..., "breed": ..., "animal_type": ...}]. *)
Record BreedRecord : Type := {
  confidence : pyval;
  breed : pyval;
  animal_type : string
}.

(** The empty dict [{}] that stands for an image without a breed. *)
Definition placeholder : pyval := PDict [].

(** Only lists and dicts among the provider's values cannot be a dict key. *)
Definition hashable (v : pyval) : bool :=
  match v with
  | PList _ | PDict _ => false
  | _ => true
  end.

(** The number a key counts as: [True == 1] and [False == 0] in Python. *)
Definition key_num (v : pyval) : option Q :=
  match v with
  | PBool b => Some (if b then 1%Q else 0%Q)
  | PNum q => Some q
  | _ => None
  end.

(** Equality of two hashable keys ([==]). *)
Definition key_eqb (a b : pyval) : bool :=
  match a, b with
  | PNone, PNone => true
  | PStr s, PStr t => s =? t
  | (PBool _ | PNum _), (PBool _ | PNum _) =>
      match key_num a, key_num b with
      | Some x, Some y => Qeq_bool x y
      | _, _ => false
      end
  | _, _ => false
  end.

(** A Python dict from breed to the list of its records, in insertion
    order; the keys are pairwise different for [key_eqb]. *)
Definition breed_dict : Type := list (pyval * list BreedRecord).

(** [d.get(k)] *)
Fixpoint dict_get (k : pyval) (d : breed_dict) : option (list BreedRecord) :=
  match d with
  | [] => None
  | (k', v) :: d' => if key_eqb k' k then Some v else dict_get k d'
  end.

(** [k in d]: hashing an unhashable key raises [TypeError]. *)
Definition dict_contains (k : pyval) (d : breed_dict) : result bool :=
  if hashable k
  then Ok (match dict_get k d with Some _ => true | None => false end)
  else Raise TypeError.

(** [d[k] = v]: the value at an existing key is replaced (the key object
    and its place stay), a new key goes to the end. *)
Fixpoint dict_store (k : pyval) (v : list BreedRecord) (d : breed_dict)
  : breed_dict :=
  match d with
  | [] => [(k, v)]
  | (k', v') :: d' =>
      if key_eqb k' k then (k', v) :: d' else (k', v') :: dict_store k v d'
  end.

Definition dict_setitem (k : pyval) (v : list BreedRecord) (d : breed_dict)
  : result breed_dict :=
  if hashable k then Ok (dict_store k v d) else Raise TypeError.

(** [d[k].append(r)] *)
Definition dict_append (k : pyval) (r : BreedRecord) (d : breed_dict)
  : result breed_dict :=
  if hashable k then
    match dict_get k d with
    | Some v => Ok (dict_store k (v ++ [r])%list d)
    | None => Raise KeyError
    end
  else Raise TypeError.

(** [AnimalClassificationResponse]: a fresh instance has its own empty
    [classified] and [unclassified] (pydantic copies the defaults). *)
Record AnimalClassificationResponse : Type := {
  classified : breed_dict;
  unclassified : list pyval
}.

(** The number of records in all the lists of a [classified] dict. *)
Fixpoint record_count (d : breed_dict) : nat :=
  match d with
  | [] => 0
  | (_, v) :: d' => List.length v + record_count d'
  end.

(** [x in ["dog", "cat"]] *)
Definition in_dog_cat (x : string) : bool := (x =? "dog") || (x =? "cat").

(* ================================================================== *)
(** ** The provider, the state and the monad *)

(** The two models [replicate.run] is called with, and the question put to
    the first. *)
Definition blip2 : string :=
  "andreasjansson/blip-2:4b32258c42e9efd4288bb9910bc532a69727f9acd26aa08e175713a0a857a608".
Definition image_classification : string :=
  "modelsaggregation/image-classification:21ceaa9c218d3a6fd09c1c6831fc1c4a5ca3ac820cd09bdf2110b3aacf47e3ba".
Definition question : string :=
  "What type of animal is this? Options: dog, cat, rabbit, bear, iguana, bird, fish, other".

(** The [input=] dict of a call, and a call as the log keeps it. *)
Definition run_input : Type := list (string * string).
Definition call : Type := (string * run_input)%type.

Definition species_input (image_data : string) : run_input :=
  [("image", image_data); ("question", question)].
Definition breed_input (image_data model_name : string) : run_input :=
  [("image", image_data); ("model_name", model_name)].

(** What the three [print] calls write: the messages of [classify_animal]
    (a classification model error), of [classify_breed] (a breed
    classification error) and of the handlers (an image processing error),
    each with the exception it reports. *)
Inductive printed : Type :=
| ClassifyError (e : exn)
| BreedError (e : exn)
| ImageError (e : exn).

(** A provider that plays a script: every call takes the next answer, and
    a call past the end of the script fails. *)
Definition scripted_run (model : string) (input : run_input)
  (w : list (result pyval)) : result pyval * list (result pyval) :=
  match w with
  | [] => (Raise (OtherError "ReplicateError" "no answer"), [])
  | r :: w' => (r, w')
  end.

(** A standard output that takes every line. *)
Definition accepting_stdout (p : printed) (out : list printed) : option exn :=
  None.

(** A standard output whose encoding cannot take the messages of the
    service (they are not ASCII): every [print] raises. *)
Definition ascii_stdout (p : printed) (out : list printed) : option exn :=
  Some (OtherError "UnicodeEncodeError" "'ascii' codec can't encode characters").

Section Service.

(** The provider is an oracle: it answers a call with a value or raises,
    and may change with every call. *)
Variable World : Type.
Variable replicate_run : string -> run_input -> World -> result pyval * World.

(** Standard output is an oracle too: given a line and what has been
    written so far, the write succeeds ([None]) or raises. *)
Variable stdout_write : printed -> list printed -> option exn.

Record State : Type := {
  world : World;
  calls : list call;
  stdout : list printed
}.

Definition M (A : Type) : Type := State -> result A * State.

Definition ret {A : Type} (a : A) : M A := fun st => (Ok a, st).

Definition bind {A B : Type} (m : M A) (k : A -> M B) : M B :=
  fun st =>
    match m st with
    | (Ok a, st') => k a st'
    | (Raise e, st') => (Raise e, st')
    end.

Definition lift {A : Type} (r : result A) : M A := fun st => (r, st).

(** [try: body / except Exception as e: handler e] *)
Definition try_except {A : Type} (body : M A) (handler : exn -> M A) : M A :=
  fun st =>
    match body st with
    | (Ok a, st') => (Ok a, st')
    | (Raise e, st') => handler e st'
    end.

Notation "x <- m ;; k" := (bind m (fun x => k))
  (at level 61, m at next level, right associativity).
Notation "m ;;; k" := (bind m (fun _ => k))
  (at level 61, right associativity).

(** [replicate.run(model, input=input)]: the oracle answers, and the call
    is logged. *)
Definition run (model : string) (input : run_input) : M pyval :=
  fun st =>
    let (r, w) := replicate_run model input (world st) in
    (r, {| world := w;
           calls := (calls st ++ [(model, input)])%list;
           stdout := stdout st |}).

(** [print(line)]: the line is added to standard output, unless writing it
    raises (an encoding that cannot take the message, a closed stream); then
    nothing is added and the exception leaves [print]. *)
Definition print (p : printed) : M unit :=
  fun st =>
    match stdout_write p (stdout st) with
    | None =>
        (Ok tt, {| world := world st;
                   calls := calls st;
                   stdout := (stdout st ++ [p])%list |})
    | Some e => (Raise e, st)
    end.

(* ================================================================== *)
(** ** classify_animal (lines 33-53) *)

(** The test of line 47 on the normalized answer. *)
Definition no_answer (result : string) : bool :=
  (result =? "") || (result =? "other") || contains "cannot" result
  || contains "not sure" result || contains "unclear" result.

Definition classify_animal (image_data : string) : M string :=
  try_except
    (output <- run blip2 (species_input image_data) ;;
     stripped <- lift (as_str output) ;;
     let result := lower (strip stripped) in
     if no_answer result then ret "unclassified" else ret result)
    (fun e => print (ClassifyError e) ;;; ret "unclassified").

(* ================================================================== *)
(** ** classify_breed (lines 56-91) *)

Definition classify_breed (image_data animal_type : string)
  : M (option BreedInfo) :=
  if negb (in_dog_cat animal_type) then ret None
  else
    try_except
      (output <-
         (if animal_type =? "dog"
          then run image_classification
                 (breed_input image_data "dog-breed-identification")
          else run image_classification
                 (breed_input image_data "cat-breed-classification")) ;;
       if truthy output then
         n <- lift (py_len output) ;;
         if (0 <? n)%nat then
           first <- lift (getitem_0 output) ;;
           breed <- lift (getitem_key first "label") ;;
           first' <- lift (getitem_0 output) ;;
           confidence <- lift (getitem_key first' "confidence") ;;
           ret (Some {| bi_breed := breed; bi_confidence := confidence |})
         else ret None
       else ret None)
      (fun e => print (BreedError e) ;;; ret None).

(* ================================================================== *)
(** ** predict (lines 93-136) *)

Definition empty_response : AnimalClassificationResponse :=
  {| classified := []; unclassified := [] |}.

(** The response with one placeholder, [classified] left at its default. *)
Definition unclassified_response : AnimalClassificationResponse :=
  {| classified := []; unclassified := [placeholder] |}.

(** The body of the [try] of [predict]. *)
Definition predict_body (file : UploadFile) : M AnimalClassificationResponse :=
  base64_image <- lift (base64_image file) ;;
  animal_type <- classify_animal base64_image ;;
  let result := empty_response in
  if in_dog_cat animal_type then
    breed_info <- classify_breed base64_image animal_type ;;
    match breed_info with
    | Some info =>
        if truthy (bi_breed info) then
          let breed_name := bi_breed info in
          let confidence := bi_confidence info in
          cls <- lift (dict_setitem breed_name
                         [{| confidence := confidence;
                             breed := breed_name;
                             animal_type := animal_type |}]
                         (classified result)) ;;
          ret {| classified := cls; unclassified := unclassified result |}
        else
          ret {| classified := classified result;
                 unclassified := [placeholder] |}
    | None =>
        ret {| classified := classified result;
               unclassified := [placeholder] |}
    end
  else
    ret {| classified := classified result; unclassified := [placeholder] |}.

Definition predict (file : UploadFile) : M AnimalClassificationResponse :=
  try_except (predict_body file)
    (fun e => print (ImageError e) ;;; ret unclassified_response).

(* ================================================================== *)
(** ** batch_predict (lines 139-194) *)

(** The two accumulators of the loop, [classified_data] and
    [unclassified_images]. *)
Definition accumulators : Type := (breed_dict * list pyval)%type.

(** The body of the [try] inside the loop, for one file.  It writes to
    [classified_data] or [unclassified_images] in its last statement only,
    and what can raise there (hashing the breed, looking its list up) raises
    before the write; so the body is a function from the accumulators to
    their new value, and a body that raises has left them untouched. *)
Definition batch_body (file : UploadFile) (acc : accumulators)
  : M accumulators :=
  let (classified_data, unclassified_images) := acc in
  base64_image <- lift (base64_image file) ;;
  animal_type <- classify_animal base64_image ;;
  if in_dog_cat animal_type then
    breed_info <- classify_breed base64_image animal_type ;;
    match breed_info with
    | Some info =>
        if truthy (bi_breed info) then
          let breed_name := bi_breed info in
          let confidence := bi_confidence info in
          let record := {| confidence := confidence;
                           breed := breed_name;
                           animal_type := animal_type |} in
          present <- lift (dict_contains breed_name classified_data) ;;
          if (present : bool) then
            cd <- lift (dict_append breed_name record classified_data) ;;
            ret (cd, unclassified_images)
          else
            cd <- lift (dict_setitem breed_name [record] classified_data) ;;
            ret (cd, unclassified_images)
        else ret (classified_data, (unclassified_images ++ [placeholder])%list)
    | None => ret (classified_data, (unclassified_images ++ [placeholder])%list)
    end
  else ret (classified_data, (unclassified_images ++ [placeholder])%list).

(** One turn of the loop: the body under its [try], and the [except] that
    adds a placeholder to [unclassified_images]. *)
Definition batch_step (file : UploadFile) (acc : accumulators)
  : M accumulators :=
  try_except (batch_body file acc)
    (fun e => print (ImageError e) ;;;
              ret (fst acc, (snd acc ++ [placeholder])%list)).

(** [for file in files: ...] *)
Fixpoint batch_loop (files : list UploadFile) (acc : accumulators)
  : M accumulators :=
  match files with
  | [] => ret acc
  | file :: rest => acc' <- batch_step file acc ;; batch_loop rest acc'
  end.

Definition batch_predict (files : list UploadFile)
  : M AnimalClassificationResponse :=
  acc <- batch_loop files ([], []) ;;
  ret {| classified := fst acc; unclassified := snd acc |}.

(* ================================================================== *)
(** ** Notions the statements use *)

(** [sub] occurs in [s]. *)
Definition substring_of (sub s : string) : Prop :=
  exists pre post, s = pre ++ sub ++ post.

(** The normalized answers that stand for no answer: empty, "other", or
    one of the three markers of doubt somewhere in the text. *)
Definition uncertain (n : string) : Prop :=
  n = "" \/ n = "other" \/ substring_of "cannot" n
  \/ substring_of "not sure" n \/ substring_of "unclear" n.

(** The records kept under [k], none when the key is absent. *)
Definition records_at (k : pyval) (d : breed_dict) : list BreedRecord :=
  match dict_get k d with Some v => v | None => [] end.

(** The aggregation step as section 4.4 words it: append the record to the
    list at its breed, creating the list if the key is new. *)
Definition dict_add (k : pyval) (r : BreedRecord) (d : breed_dict)
  : breed_dict :=
  dict_store k (records_at k d ++ [r])%list d.

(** The record a handler files for a breed answer. *)
Definition record_of (info : BreedInfo) (a : string) : BreedRecord :=
  {| confidence := bi_confidence info; breed := bi_breed info;
     animal_type := a |}.

(** What one image does to the accumulators: a record more under one key,
    or a placeholder more. *)
Definition one_entry (acc acc' : accumulators) : Prop :=
  (exists k r, hashable k = true
               /\ acc' = (dict_add k r (fst acc), snd acc))
  \/ acc' = (fst acc, (snd acc ++ [placeholder])%list).

(** Standard output takes every line: no [print] raises. *)
Definition writable : Prop := forall p out, stdout_write p out = None.

(** The state with one more line on standard output. *)
Definition logged (st : State) (p : printed) : State :=
  {| world := world st; calls := calls st;
     stdout := (stdout st ++ [p])%list |}.

(** The state after one call to the provider that left it in [w]. *)
Definition called (st : State) (w : World) (model : string)
  (input : run_input) : State :=
  {| world := w; calls := (calls st ++ [(model, input)])%list;
     stdout := stdout st |}.

(** The sub-model [classify_breed] asks for. *)
Definition breed_model_name (animal_type : string) : string :=
  if animal_type =? "dog" then "dog-breed-identification"
  else "cat-breed-classification".

(** The calls the service can make: the species question about some
    image, or the breed model with one of its two sub-models. *)
Definition known_call (c : call) : Prop :=
  (exists img, c = (blip2, species_input img))
  \/ (exists img,
        c = (image_classification,
             breed_input img "dog-breed-identification"))
  \/ (exists img,
        c = (image_classification,
             breed_input img "cat-breed-classification")).

(** A record that sits rightly under the key [k]: its breed is the key, a
    truthy value, and its species is dog or cat. *)
Definition record_ok (k : pyval) (r : BreedRecord) : Prop :=
  key_eqb k (breed r) = true /\ truthy (breed r) = true
  /\ in_dog_cat (animal_type r) = true.

(** A [classified] dict in good order: every key is hashable and truthy,
    has a list that is not empty and holds only records of that breed, and
    occurs once. *)
Fixpoint well_formed (d : breed_dict) : Prop :=
  match d with
  | [] => True
  | (k, v) :: d' =>
      hashable k = true /\ truthy k = true /\ v <> []
      /\ Forall (record_ok k) v /\ dict_get k d' = None
      /\ well_formed d'
  end.

(** The trace of an image that ends as a placeholder: at most one line
    printed, and at most two calls made, all of them known ones. *)
Definition placeholder_trace (st st' : State) : Prop :=
  (exists lines, stdout st' = (stdout st ++ lines)%list
                 /\ (List.length lines <= 1)%nat)
  /\ (exists cs, calls st' = (calls st ++ cs)%list
                 /\ (List.length cs <= 2)%nat /\ Forall known_call cs).

(** A text begins with no space: it is empty or its first character is
    none. *)
Definition starts_clean (s : string) : bool :=
  match s with
  | EmptyString => true
  | String c _ => negb (isspace c)
  end.

(** A base64 character: of the alphabet, or the padding. *)
Definition b64_symbol (c : ascii) : bool :=
  contains (String c "") b64_alphabet || Ascii.eqb c "=".

(** Every character of [s] passes [p]. *)
Fixpoint all_chars (p : ascii -> bool) (s : string) : bool :=
  match s with
  | EmptyString => true
  | String c s' => p c && all_chars p s'
  end.

(** What the [except] of [classify_breed] makes of the exception [e],
    raised after the call left the provider in [w]: [None] once the line is
    printed, or the exception of a [print] that cannot write it. *)
Definition breed_failure (img a : string) (st : State) (w : World) (e : exn)
  : result (option BreedInfo) * State :=
  match stdout_write (BreedError e) (stdout st) with
  | None =>
      (Ok None,
       logged (called st w image_classification
                 (breed_input img (breed_model_name a))) (BreedError e))
  | Some e' =>
      (Raise e',
       called st w image_classification
         (breed_input img (breed_model_name a)))
  end.

(* ================================================================== *)
(** ** Text: prefixes, substrings, splitting *)

(** The definitions on the inputs the documentation of Python and of
    base64 (RFC 4648) gives. *)
Example strip_lower_examples :
  strip "  spam  " = "spam"
  /\ strip (String (ascii_of_nat 9) "a b" ++ String (ascii_of_nat 10) "")
     = "a b"
  /\ lower "Not Sure" = "not sure"
  /\ contains "cannot" "i cannot tell" = true
  /\ contains "unclear" "unclassified" = false.
Proof. repeat split. Qed.

Example split_examples :
  split "/" "image/png" = ["image"; "png"]
  /\ split "/" "png" = ["png"]
  /\ split "/" "" = [""]
  /\ split "/" "a//b" = ["a"; ""; "b"].
Proof. repeat split. Qed.

Example b64encode_examples :
  b64encode (list_byte_of_string "") = ""
  /\ b64encode (list_byte_of_string "f") = "Zg=="
  /\ b64encode (list_byte_of_string "fo") = "Zm8="
  /\ b64encode (list_byte_of_string "foo") = "Zm9v"
  /\ b64encode (list_byte_of_string "foobar") = "Zm9vYmFy".
Proof. repeat split. Qed.

Lemma startswith_app (a s : string) :
  startswith a s = true <-> exists post, s = a ++ post.
Proof.
  revert s; induction a as [|c a IH]; intros s; simpl.
  - split; [intros _; now exists s | intros _; reflexivity].
  - destruct s as [|d s].
    + split; [discriminate | intros [post H]; discriminate].
    + rewrite andb_true_iff, Ascii.eqb_eq, IH. split.
      * intros [-> [post ->]]. now exists post.
      * intros [post H]. injection H as -> ->. split; [reflexivity|].
        now exists post.
Qed.

Lemma contains_spec (sub s : string) :
  contains sub s = true <-> substring_of sub s.
Proof.
  unfold substring_of.
  induction s as [|c s IH].
  - simpl. rewrite orb_false_r, startswith_app. split.
    + intros [post H]. now exists "", post.
    + intros [pre [post H]]. destruct pre; simpl in H.
      * now exists post.
      * discriminate.
  - simpl. rewrite orb_true_iff, startswith_app, IH. split.
    + intros [[post H] | [pre [post H]]].
      * now exists "", post.
      * exists (String c pre), post. simpl. now rewrite H.
    + intros [pre [post H]]. destruct pre as [|d pre]; simpl in H.
      * left. now exists post.
      * right. injection H as _ H. now exists pre, post.
Qed.

Lemma no_answer_spec (n : string) : no_answer n = true <-> uncertain n.
Proof using Type.
  unfold no_answer, uncertain.
  rewrite !orb_true_iff, !String.eqb_eq, !contains_spec, !or_assoc.
  reflexivity.
Qed.

Lemma no_answer_false (n : string) : no_answer n = false <-> ~ uncertain n.
Proof using Type.
  rewrite <- no_answer_spec. destruct (no_answer n); split; congruence.
Qed.

Lemma split_free (c : ascii) (s : string) :
  free_of c s = true -> split c s = [s].
Proof.
  induction s as [|a s IH]; simpl; [reflexivity|].
  destruct (Ascii.eqb a c); simpl; [discriminate|].
  intros H. now rewrite (IH H).
Qed.

Lemma split_nonempty (c : ascii) (s : string) : split c s <> [].
Proof.
  destruct s as [|a s]; simpl; [discriminate|].
  destruct (Ascii.eqb a c); [discriminate|].
  destruct (split c s); discriminate.
Qed.

Lemma getitem_last_cons (x : string) (l : list string) :
  l <> [] -> getitem_last (x :: l) = getitem_last l.
Proof. destruct l; [congruence | reflexivity]. Qed.

Lemma split_two_pieces (c : ascii) (pre sub : string) :
  (2 <= List.length (split c (pre ++ String c sub)))%nat.
Proof.
  induction pre as [|a pre IH]; simpl.
  - rewrite Ascii.eqb_refl. simpl.
    pose proof (split_nonempty c sub).
    destruct (split c sub); [congruence | simpl; lia].
  - destruct (Ascii.eqb a c); simpl; [lia|].
    destruct (split c (pre ++ String c sub)); simpl in *; lia.
Qed.

(** The last piece of a text cut at [c] is what follows its last [c]. *)
Lemma last_of_split (c : ascii) (pre sub : string) :
  free_of c sub = true ->
  getitem_last (split c (pre ++ String c sub)) = Ok sub.
Proof.
  intros Hfree. induction pre as [|a pre IH]; simpl.
  - rewrite Ascii.eqb_refl, (split_free _ _ Hfree). reflexivity.
  - destruct (Ascii.eqb a c).
    + rewrite getitem_last_cons by apply split_nonempty. exact IH.
    + pose proof (split_two_pieces c pre sub) as L.
      destruct (split c (pre ++ String c sub)) as [|p [|q ps]];
        simpl in L; try lia.
      exact IH.
Qed.

(* ================================================================== *)
(** ** The breed dict *)

Lemma key_eqb_refl (k : pyval) : hashable k = true -> key_eqb k k = true.
Proof.
  destruct k; simpl; try discriminate; intros _; trivial.
  - apply Qeq_bool_refl.
  - apply Qeq_bool_refl.
  - apply String.eqb_refl.
Qed.

Lemma key_eqb_sym (a b : pyval) : key_eqb a b = key_eqb b a.
Proof.
  destruct a, b; simpl; trivial;
    try (apply eq_true_iff_eq; split; intros H;
         apply Qeq_bool_sym; exact H).
  apply String.eqb_sym.
Qed.

Lemma key_eqb_trans (a b c : pyval) :
  key_eqb a b = true -> key_eqb b c = true -> key_eqb a c = true.
Proof.
  destruct a, b, c; simpl; trivial; try discriminate;
    try (intros H1 H2; eapply Qeq_bool_trans; eassumption).
  rewrite !String.eqb_eq. congruence.
Qed.

Lemma dict_get_store_same (k : pyval) (v : list BreedRecord) (d : breed_dict) :
  hashable k = true -> dict_get k (dict_store k v d) = Some v.
Proof.
  intros Hk. induction d as [|[k0 v0] d IH]; simpl.
  - now rewrite key_eqb_refl.
  - destruct (key_eqb k0 k) eqn:E; simpl; rewrite E; [reflexivity | exact IH].
Qed.

Lemma dict_get_store_other (k k' : pyval) (v : list BreedRecord)
  (d : breed_dict) :
  key_eqb k' k = false -> dict_get k' (dict_store k v d) = dict_get k' d.
Proof.
  intros Hne. induction d as [|[k0 v0] d IH]; simpl.
  - now rewrite key_eqb_sym, Hne.
  - destruct (key_eqb k0 k) eqn:E; simpl.
    + destruct (key_eqb k0 k') eqn:E'; [|reflexivity].
      rewrite key_eqb_sym in E'.
      now rewrite (key_eqb_trans _ _ _ E' E) in Hne.
    + now rewrite IH.
Qed.

Lemma record_count_store (k : pyval) (v : list BreedRecord) (d : breed_dict) :
  (record_count (dict_store k v d) + List.length (records_at k d)
   = record_count d + List.length v)%nat.
Proof.
  unfold records_at. induction d as [|[k0 v0] d IH]; simpl.
  - lia.
  - destruct (key_eqb k0 k) eqn:E; simpl; lia.
Qed.

Lemma record_count_add (k : pyval) (r : BreedRecord) (d : breed_dict) :
  record_count (dict_add k r d) = S (record_count d).
Proof.
  unfold dict_add.
  pose proof (record_count_store k (records_at k d ++ [r])%list d) as H.
  rewrite length_app in H. simpl in H. lia.
Qed.

(** Adding under a key that is there keeps the keys and their order; a new
    key goes last. *)
Lemma keys_store (k : pyval) (v : list BreedRecord) (d : breed_dict) :
  map fst (dict_store k v d)
  = match dict_get k d with
    | Some _ => map fst d
    | None => (map fst d ++ [k])%list
    end.
Proof.
  induction d as [|[k0 v0] d IH]; simpl; [reflexivity|].
  destruct (key_eqb k0 k); simpl; [reflexivity|].
  rewrite IH. now destruct (dict_get k d).
Qed.

(** The two branches of lines 168-180 together are [dict_add]. *)
Lemma append_or_create (k : pyval) (r : BreedRecord) (d : breed_dict) :
  hashable k = true ->
  match dict_contains k d with
  | Ok true => dict_append k r d
  | Ok false => dict_setitem k [r] d
  | Raise e => Raise e
  end = Ok (dict_add k r d).
Proof.
  intros Hk. unfold dict_contains, dict_append, dict_setitem, dict_add,
    records_at. rewrite Hk.
  destruct (dict_get k d); reflexivity.
Qed.


(* ================================================================== *)
(** ** The classified dict stays in good order *)

Lemma record_ok_key (k k' : pyval) (r : BreedRecord) :
  key_eqb k' k = true -> record_ok k r -> record_ok k' r.
Proof.
  intros E [H1 H2]. split; [|exact H2].
  now apply (key_eqb_trans _ _ _ E).
Qed.

Lemma records_at_ok (k : pyval) (d : breed_dict) :
  well_formed d -> Forall (record_ok k) (records_at k d).
Proof.
  unfold records_at. induction d as [|[k0 v0] d IH]; simpl.
  - constructor.
  - intros (_ & _ & _ & Hv & _ & Hd).
    destruct (key_eqb k0 k) eqn:E; [|now apply IH].
    rewrite key_eqb_sym in E.
    eapply Forall_impl; [|exact Hv].
    intros r. now apply record_ok_key.
Qed.

Lemma well_formed_store (k : pyval) (v : list BreedRecord) (d : breed_dict) :
  hashable k = true -> truthy k = true -> v <> [] ->
  Forall (record_ok k) v ->
  well_formed d -> well_formed (dict_store k v d).
Proof.
  intros Hh Ht Hne Hv. induction d as [|[k0 v0] d IH]; simpl.
  - intros _. now repeat split.
  - intros (Hh0 & Ht0 & Hne0 & Hv0 & Hf & Hd).
    destruct (key_eqb k0 k) eqn:E; simpl.
    + repeat split; try assumption.
      eapply Forall_impl; [|exact Hv].
      intros r. now apply record_ok_key.
    + repeat split; try assumption.
      * now rewrite dict_get_store_other.
      * now apply IH.
Qed.

Lemma well_formed_add (info : BreedInfo) (a : string) (d : breed_dict) :
  in_dog_cat a = true ->
  truthy (bi_breed info) = true ->
  hashable (bi_breed info) = true ->
  well_formed d ->
  well_formed (dict_add (bi_breed info) (record_of info a) d).
Proof.
  intros Ha Ht Hh Hd. unfold dict_add.
  apply well_formed_store; try assumption.
  - now destruct (records_at (bi_breed info) d).
  - apply Forall_app. split; [now apply records_at_ok|].
    constructor; [|constructor].
    repeat split; simpl; try assumption. now apply key_eqb_refl.
Qed.


(* ================================================================== *)
(** ** More on text: trimming and lowercasing *)

Lemma lower_char_idem (c : ascii) : lower_char (lower_char c) = lower_char c.
Proof. destruct c as [[] [] [] [] [] [] [] []]; reflexivity. Qed.

Lemma isspace_lower_char (c : ascii) : isspace (lower_char c) = isspace c.
Proof. destruct c as [[] [] [] [] [] [] [] []]; reflexivity. Qed.

Lemma lower_idem (s : string) : lower (lower s) = lower s.
Proof.
  induction s as [|c s IH]; simpl; [reflexivity|].
  now rewrite lower_char_idem, IH.
Qed.

Lemma lstrip_lower (s : string) : lstrip (lower s) = lower (lstrip s).
Proof.
  induction s as [|c s IH]; simpl; [reflexivity|].
  rewrite isspace_lower_char. now destruct (isspace c).
Qed.

Lemma rstrip_lower (s : string) : rstrip (lower s) = lower (rstrip s).
Proof.
  induction s as [|c s IH]; simpl; [reflexivity|].
  rewrite IH, isspace_lower_char.
  destruct (rstrip s); simpl; [now destruct (isspace c) | reflexivity].
Qed.

Lemma strip_lower (s : string) : strip (lower s) = lower (strip s).
Proof. unfold strip. now rewrite lstrip_lower, rstrip_lower. Qed.

Lemma lstrip_starts_clean (s : string) : starts_clean (lstrip s) = true.
Proof.
  induction s as [|c s IH]; simpl; [reflexivity|].
  destruct (isspace c) eqn:E; [exact IH | simpl; now rewrite E].
Qed.

Lemma lstrip_clean (s : string) : starts_clean s = true -> lstrip s = s.
Proof.
  destruct s as [|c s]; simpl; [reflexivity|].
  now destruct (isspace c).
Qed.

Lemma rstrip_starts_clean (s : string) :
  starts_clean s = true -> starts_clean (rstrip s) = true.
Proof.
  destruct s as [|c s]; simpl; [reflexivity|].
  intros H. destruct (rstrip s); simpl; [|exact H].
  destruct (isspace c) eqn:E; [discriminate | simpl; now rewrite E].
Qed.

Lemma rstrip_idem (s : string) : rstrip (rstrip s) = rstrip s.
Proof.
  induction s as [|c s IH]; simpl; [reflexivity|].
  destruct (rstrip s) as [|d r] eqn:E.
  - destruct (isspace c) eqn:Ec; simpl; [reflexivity | now rewrite Ec].
  - simpl in *. now rewrite IH.
Qed.

Lemma strip_idem (s : string) : strip (strip s) = strip s.
Proof.
  unfold strip.
  rewrite (lstrip_clean (rstrip (lstrip s))).
  - apply rstrip_idem.
  - apply rstrip_starts_clean, lstrip_starts_clean.
Qed.

(** What [split] leaves last: a piece without the separator, which is the
    whole text or what follows its last separator. *)
Lemma last_of_split_spec (c : ascii) (s : string) :
  exists x,
    getitem_last (split c s) = Ok x
    /\ free_of c x = true
    /\ (s = x \/ exists pre, s = pre ++ String c x).
Proof.
  induction s as [|a s IH]; simpl.
  - exists "". repeat split. now left.
  - destruct IH as [x [Hl [Hf Hs]]].
    destruct (Ascii.eqb a c) eqn:E.
    + apply Ascii.eqb_eq in E. subst a.
      exists x. rewrite getitem_last_cons by apply split_nonempty.
      repeat split; try assumption. right.
      destruct Hs as [-> | [pre ->]]; [now exists "" |].
      now exists (String c pre).
    + destruct Hs as [-> | [pre ->]].
      * rewrite (split_free _ _ Hf). exists (String a x).
        simpl. rewrite E. repeat split; try assumption. now left.
      * pose proof (split_two_pieces c pre x) as L.
        destruct (split c (pre ++ String c x)) as [|p [|q ps]];
          simpl in L; try lia.
        exists x. repeat split; try assumption. right.
        now exists (String a pre).
Qed.

(* ================================================================== *)
(** ** The size and the characters of a base64 text *)

Lemma b64_char_symbol (n : N) : b64_symbol (b64_char n) = true.
Proof.
  unfold b64_char.
  destruct (N.to_nat n) as [|m] eqn:E; [reflexivity|].
  do 64 (destruct m as [|m]; [reflexivity|]).
  reflexivity.
Qed.

Lemma b64encode_shape (n : nat) :
  forall bs : list byte,
    (List.length bs <= n)%nat ->
    String.length (b64encode bs) = (4 * ((List.length bs + 2) / 3))%nat
    /\ all_chars b64_symbol (b64encode bs) = true.
Proof.
  induction n as [n IH] using lt_wf_ind. intros bs Hn.
  destruct bs as [|a [|b [|c rest]]].
  - split; reflexivity.
  - split; [reflexivity|]. simpl. now rewrite !b64_char_symbol.
  - split; [reflexivity|]. simpl. now rewrite !b64_char_symbol.
  - destruct (IH (List.length rest)) with (bs := rest) as [L A];
      [simpl in Hn; lia | lia |].
    split.
    + change (b64encode (a :: b :: c :: rest))
        with (String (b64_char (Byte.to_N a / 4))
                (String (b64_char ((Byte.to_N a mod 4) * 16
                                   + Byte.to_N b / 16))
                   (String (b64_char ((Byte.to_N b mod 16) * 4
                                      + Byte.to_N c / 64))
                      (String (b64_char (Byte.to_N c mod 64))
                         (b64encode rest))))).
      cbn [String.length List.length]. rewrite L.
      replace (S (S (S (List.length rest))) + 2)%nat
        with (1 * 3 + (List.length rest + 2))%nat by lia.
      rewrite Nat.div_add_l by lia. lia.
    + change (b64encode (a :: b :: c :: rest))
        with (String (b64_char (Byte.to_N a / 4))
                (String (b64_char ((Byte.to_N a mod 4) * 16
                                   + Byte.to_N b / 16))
                   (String (b64_char ((Byte.to_N b mod 16) * 4
                                      + Byte.to_N c / 64))
                      (String (b64_char (Byte.to_N c mod 64))
                         (b64encode rest))))).
      cbn [all_chars]. now rewrite !b64_char_symbol, A.
Qed.


Lemma in_dog_cat_true (a : string) :
  in_dog_cat a = true <-> a = "dog" \/ a = "cat".
Proof. unfold in_dog_cat. now rewrite orb_true_iff, !String.eqb_eq. Qed.

Lemma in_dog_cat_false (a : string) :
  in_dog_cat a = false <-> a <> "dog" /\ a <> "cat".
Proof.
  unfold in_dog_cat. now rewrite orb_false_iff, !String.eqb_neq.
Qed.

Lemma content_subtype_image (sub : string) :
  free_of "/" sub = true -> content_subtype (Some ("image/" ++ sub)) = Ok sub.
Proof.
  intros H. unfold content_subtype.
  change ("image/" ++ sub) with ("image" ++ String "/" sub).
  now apply last_of_split.
Qed.

Lemma one_entry_count (acc acc' : accumulators) :
  one_entry acc acc' ->
  (record_count (fst acc') + List.length (snd acc')
   = S (record_count (fst acc) + List.length (snd acc)))%nat.
Proof.
  intros [[k [r [_ ->]]] | ->]; simpl.
  - rewrite record_count_add. lia.
  - rewrite length_app. simpl. lia.
Qed.

Lemma one_entry_not_both (acc acc' : accumulators) :
  ~ ((exists k r, acc' = (dict_add k r (fst acc), snd acc))
     /\ acc' = (fst acc, (snd acc ++ [placeholder])%list)).
Proof.
  intros [[k [r H1]] H2]. rewrite H1 in H2.
  apply (f_equal (fun p => List.length (snd p))) in H2. simpl in H2.
  rewrite length_app in H2. simpl in H2. lia.
Qed.

Lemma breed_model_name_known (img a : string) :
  known_call (image_classification, breed_input img (breed_model_name a)).
Proof using Type.
  unfold known_call, breed_model_name.
  destruct (a =? "dog"); [right; left | right; right]; now exists img.
Qed.

(* ================================================================== *)
(** ** The monad: calls and prints *)

Lemma run_eq (model : string) (input : run_input) (st : State)
  (r : result pyval) (w : World) :
  replicate_run model input (world st) = (r, w) ->
  run model input st = (r, called st w model input).
Proof. intros H. unfold run, called. now rewrite H. Qed.

(** An [except] block that prints a line and returns [a]: it returns when
    the line can be written, and lets the exception of the write out
    otherwise. *)
Lemma report_eq {A : Type} (p : printed) (a : A) (st : State) :
  (print p ;;; ret a) st
  = match stdout_write p (stdout st) with
    | None => (Ok a, logged st p)
    | Some e => (Raise e, st)
    end.
Proof.
  unfold bind, print, ret, logged.
  now destruct (stdout_write p (stdout st)).
Qed.

Lemma report_calls {A : Type} (p : printed) (a : A) (st : State) :
  calls (snd ((print p ;;; ret a) st)) = calls st
  /\ world (snd ((print p ;;; ret a) st)) = world st.
Proof.
  rewrite report_eq. now destruct (stdout_write p (stdout st)).
Qed.

(** A [try] whose body begins with [m]: an exception of [m] goes to the
    handler, a value of [m] to the rest of the body, still under the
    [try]. *)
Lemma try_bind {A B : Type} (m : M A) (k : A -> M B) (h : exn -> M B)
  (st : State) :
  try_except (x <- m ;; k x) h st
  = match m st with
    | (Ok a, st') => try_except (k a) h st'
    | (Raise e, st') => h e st'
    end.
Proof.
  unfold try_except, bind. now destruct (m st) as [[a|e] st'].
Qed.

Lemma try_ret {A : Type} (a : A) (h : exn -> M A) (st : State) :
  try_except (ret a) h st = (Ok a, st).
Proof. reflexivity. Qed.

(* ================================================================== *)
(** ** The two classifiers *)

Lemma classify_animal_text (img s : string) (st : State) (w : World) :
  replicate_run blip2 (species_input img) (world st) = (Ok (PStr s), w) ->
  classify_animal img st
  = (Ok (if no_answer (lower (strip s)) then "unclassified"
         else lower (strip s)),
     called st w blip2 (species_input img)).
Proof.
  intros H. unfold classify_animal, try_except, bind.
  rewrite (run_eq _ _ _ _ _ H). simpl.
  now destruct (no_answer (lower (strip s))).
Qed.

Lemma classify_animal_raise (img : string) (st : State) (e : exn) (w : World) :
  replicate_run blip2 (species_input img) (world st) = (Raise e, w) ->
  classify_animal img st
  = match stdout_write (ClassifyError e) (stdout st) with
    | None =>
        (Ok "unclassified",
         logged (called st w blip2 (species_input img)) (ClassifyError e))
    | Some e' => (Raise e', called st w blip2 (species_input img))
    end.
Proof.
  intros H. unfold classify_animal.
  rewrite try_bind, (run_eq _ _ _ _ _ H). now rewrite report_eq.
Qed.

Lemma classify_animal_not_text (img : string) (st : State) (v : pyval)
  (w : World) :
  replicate_run blip2 (species_input img) (world st) = (Ok v, w) ->
  (forall s, v <> PStr s) ->
  classify_animal img st
  = match stdout_write (ClassifyError AttributeError) (stdout st) with
    | None =>
        (Ok "unclassified",
         logged (called st w blip2 (species_input img))
           (ClassifyError AttributeError))
    | Some e' => (Raise e', called st w blip2 (species_input img))
    end.
Proof.
  intros H Hv. unfold classify_animal.
  rewrite try_bind, (run_eq _ _ _ _ _ H), try_bind. unfold lift.
  destruct v; try (simpl as_str; cbv iota; now rewrite report_eq).
  now elim (Hv s).
Qed.

(** The three ways [classify_animal] ends: with the label of a text
    answer and nothing printed; with "unclassified" and the line of the
    failure printed; with the exception of a [print] that could not write
    that line. *)
Lemma classify_animal_cases (img : string) (st : State) :
  exists w,
    (exists label,
        classify_animal img st
        = (Ok label, called st w blip2 (species_input img)))
    \/ (exists e,
          stdout_write (ClassifyError e) (stdout st) = None
          /\ classify_animal img st
             = (Ok "unclassified",
                logged (called st w blip2 (species_input img))
                  (ClassifyError e)))
    \/ (exists e e',
          stdout_write (ClassifyError e) (stdout st) = Some e'
          /\ classify_animal img st
             = (Raise e', called st w blip2 (species_input img))).
Proof.
  destruct (replicate_run blip2 (species_input img) (world st)) as [r w] eqn:H.
  exists w.
  assert (F : forall e,
             classify_animal img st
             = match stdout_write (ClassifyError e) (stdout st) with
               | None =>
                   (Ok "unclassified",
                    logged (called st w blip2 (species_input img))
                      (ClassifyError e))
               | Some e' => (Raise e', called st w blip2 (species_input img))
               end ->
             (exists label,
                 classify_animal img st
                 = (Ok label, called st w blip2 (species_input img)))
             \/ (exists e0,
                   stdout_write (ClassifyError e0) (stdout st) = None
                   /\ classify_animal img st
                      = (Ok "unclassified",
                         logged (called st w blip2 (species_input img))
                           (ClassifyError e0)))
             \/ (exists e0 e',
                   stdout_write (ClassifyError e0) (stdout st) = Some e'
                   /\ classify_animal img st
                      = (Raise e', called st w blip2 (species_input img)))).
  { intros e E.
    destruct (stdout_write (ClassifyError e) (stdout st)) as [e'|] eqn:W.
    - right; right. now exists e, e'.
    - right; left. now exists e. }
  destruct r as [v|e].
  - destruct v;
      try (apply (F AttributeError);
           apply (classify_animal_not_text _ _ _ _ H); discriminate).
    left. eexists. apply (classify_animal_text _ _ _ _ H).
  - apply (F e). apply (classify_animal_raise _ _ _ _ H).
Qed.

Lemma classify_animal_calls (img : string) (st : State) :
  calls (snd (classify_animal img st))
  = (calls st ++ [(blip2, species_input img)])%list.
Proof.
  destruct (classify_animal_cases img st)
    as [w [[l ->] | [[e [_ ->]] | [e [e' [_ ->]]]]]]; reflexivity.
Qed.

(** A label comes with nothing raised only from the three ways above, and
    a standard output that takes every line leaves the first two. *)
Lemma classify_animal_total (img : string) (st : State) :
  writable ->
  exists label st',
    classify_animal img st = (Ok label, st')
    /\ calls st' = (calls st ++ [(blip2, species_input img)])%list.
Proof.
  intros Wr.
  destruct (classify_animal_cases img st)
    as [w [[l H] | [[e [_ H]] | [e [e' [W _]]]]]].
  - eexists _, _. split; [exact H | reflexivity].
  - eexists _, _. split; [exact H | reflexivity].
  - rewrite Wr in W. discriminate.
Qed.

Lemma classify_breed_skip (img a : string) (st : State) :
  in_dog_cat a = false -> classify_breed img a st = (Ok None, st).
Proof. intros H. unfold classify_breed. now rewrite H. Qed.

(** For a dog or a cat the one call goes to the breed model, with the
    sub-model of the species. *)
Lemma classify_breed_unfold (img a : string) (st : State) :
  in_dog_cat a = true ->
  classify_breed img a st
  = try_except
      (output <- run image_classification
                   (breed_input img (breed_model_name a)) ;;
       if truthy output then
         n <- lift (py_len output) ;;
         if (0 <? n)%nat then
           first <- lift (getitem_0 output) ;;
           breed <- lift (getitem_key first "label") ;;
           first' <- lift (getitem_0 output) ;;
           confidence <- lift (getitem_key first' "confidence") ;;
           ret (Some {| bi_breed := breed; bi_confidence := confidence |})
         else ret None
       else ret None)
      (fun e => print (BreedError e) ;;; ret None) st.
Proof.
  intros H. unfold classify_breed, breed_model_name. rewrite H. simpl.
  now destruct (a =? "dog").
Qed.

Lemma classify_breed_raise (img a : string) (st : State) (e : exn) (w : World) :
  in_dog_cat a = true ->
  replicate_run image_classification (breed_input img (breed_model_name a))
    (world st) = (Raise e, w) ->
  classify_breed img a st = breed_failure img a st w e.
Proof.
  intros Ha H. rewrite classify_breed_unfold by exact Ha.
  rewrite try_bind, (run_eq _ _ _ _ _ H). now rewrite report_eq.
Qed.


(** After an answer [v], [classify_breed] ends with what the lookups in
    [v] give: a record, no record, or the exception of a lookup handed to
    its [except]. *)
Lemma classify_breed_answer (img a : string) (st : State) (v : pyval)
  (w : World) :
  in_dog_cat a = true ->
  replicate_run image_classification (breed_input img (breed_model_name a))
    (world st) = (Ok v, w) ->
  (exists o,
      classify_breed img a st
      = (Ok o, called st w image_classification
                 (breed_input img (breed_model_name a))))
  \/ (exists e, classify_breed img a st = breed_failure img a st w e).
Proof.
  intros Ha H. rewrite classify_breed_unfold by exact Ha.
  rewrite try_bind, (run_eq _ _ _ _ _ H).
  assert (K : forall e,
             (print (BreedError e) ;;; ret None)
               (called st w image_classification
                  (breed_input img (breed_model_name a)))
             = breed_failure img a st w e)
    by (intros e; now rewrite report_eq).
  destruct (truthy v); [|left; now eexists].
  unfold lift. rewrite try_bind. cbv beta.
  destruct (py_len v) as [n|e]; [|right; now exists e].
  destruct (0 <? n)%nat; [|left; now eexists].
  rewrite try_bind. cbv beta.
  destruct (getitem_0 v) as [x|e]; [|right; now exists e].
  rewrite try_bind. cbv beta.
  destruct (getitem_key x "label") as [l|e]; [|right; now exists e].
  rewrite try_bind. cbv beta. rewrite try_bind. cbv beta.
  destruct (getitem_key x "confidence") as [c|e]; [|right; now exists e].
  left. now eexists.
Qed.

Lemma classify_breed_top (img a : string) (st : State)
  (d : list (string * pyval)) (rest : list pyval) (w : World) :
  in_dog_cat a = true ->
  replicate_run image_classification (breed_input img (breed_model_name a))
    (world st) = (Ok (PList (PDict d :: rest)), w) ->
  classify_breed img a st
  = match assoc "label" d, assoc "confidence" d with
    | Some l, Some c =>
        (Ok (Some {| bi_breed := l; bi_confidence := c |}),
         called st w image_classification
           (breed_input img (breed_model_name a)))
    | _, _ => breed_failure img a st w KeyError
    end.
Proof.
  intros Ha H. rewrite classify_breed_unfold by exact Ha.
  rewrite try_bind, (run_eq _ _ _ _ _ H).
  cbn [truthy]. rewrite try_bind. unfold lift at 1. cbn [py_len List.length].
  cbn [Nat.ltb Nat.leb]. rewrite try_bind. unfold lift at 1. cbn [getitem_0].
  rewrite try_bind. unfold lift at 1. cbn [getitem_key].
  destruct (assoc "label" d) as [l|]; [|cbv beta; now rewrite report_eq].
  rewrite try_bind. unfold lift at 1. cbn [getitem_0].
  rewrite try_bind. unfold lift at 1. cbn [getitem_key].
  destruct (assoc "confidence" d) as [c|]; [reflexivity|].
  cbv beta. now rewrite report_eq.
Qed.

(** The three ways [classify_breed] ends for a dog or a cat. *)
Lemma classify_breed_cases (img a : string) (st : State) :
  in_dog_cat a = true ->
  exists w,
    (exists o,
        classify_breed img a st
        = (Ok o, called st w image_classification
                   (breed_input img (breed_model_name a))))
    \/ (exists e,
          stdout_write (BreedError e) (stdout st) = None
          /\ classify_breed img a st
             = (Ok None,
                logged (called st w image_classification
                          (breed_input img (breed_model_name a)))
                  (BreedError e)))
    \/ (exists e e',
          stdout_write (BreedError e) (stdout st) = Some e'
          /\ classify_breed img a st
             = (Raise e',
                called st w image_classification
                  (breed_input img (breed_model_name a)))).
Proof.
  intros Ha.
  destruct (replicate_run image_classification
              (breed_input img (breed_model_name a)) (world st))
    as [r w] eqn:H.
  exists w.
  assert (F : forall e,
             classify_breed img a st = breed_failure img a st w e ->
             (exists e0,
                 stdout_write (BreedError e0) (stdout st) = None
                 /\ classify_breed img a st
                    = (Ok None,
                       logged (called st w image_classification
                                 (breed_input img (breed_model_name a)))
                         (BreedError e0)))
             \/ (exists e0 e',
                   stdout_write (BreedError e0) (stdout st) = Some e'
                   /\ classify_breed img a st
                      = (Raise e',
                         called st w image_classification
                           (breed_input img (breed_model_name a))))).
  { intros e E. unfold breed_failure in E.
    destruct (stdout_write (BreedError e) (stdout st)) as [e'|] eqn:W.
    - right. now exists e, e'.
    - left. now exists e. }
  destruct r as [v|e].
  - destruct (classify_breed_answer img a st v w Ha H) as [O | [e E]].
    + now left.
    + right. now apply (F e).
  - right. apply (F e). now apply classify_breed_raise.
Qed.

Lemma classify_breed_calls_exact (img a : string) (st : State) :
  in_dog_cat a = true ->
  calls (snd (classify_breed img a st))
  = (calls st ++ [(image_classification,
                   breed_input img (breed_model_name a))])%list.
Proof.
  intros Ha.
  destruct (classify_breed_cases img a st Ha)
    as [w [[o ->] | [[e [_ ->]] | [e [e' [_ ->]]]]]]; reflexivity.
Qed.

Lemma classify_breed_total (img a : string) (st : State) :
  writable ->
  exists info st', classify_breed img a st = (Ok info, st').
Proof.
  intros Wr. destruct (in_dog_cat a) eqn:Ha.
  - destruct (classify_breed_cases img a st Ha)
      as [w [[o H] | [[e [_ H]] | [e [e' [W _]]]]]]; eauto.
    rewrite Wr in W. discriminate.
  - rewrite classify_breed_skip by exact Ha. eauto.
Qed.
(* ================================================================== *)
(** ** The handlers, one image at a time *)

Lemma predict_body_eq (file : UploadFile) (st st1 : State) (img a : string) :
  base64_image file = Ok img ->
  classify_animal img st = (Ok a, st1) ->
  predict_body file st
  = if in_dog_cat a then
      match classify_breed img a st1 with
      | (Ok (Some info), st2) =>
          if truthy (bi_breed info) then
            if hashable (bi_breed info) then
              (Ok {| classified := [(bi_breed info, [record_of info a])];
                     unclassified := [] |}, st2)
            else (Raise TypeError, st2)
          else (Ok unclassified_response, st2)
      | (Ok None, st2) => (Ok unclassified_response, st2)
      | (Raise e, st2) => (Raise e, st2)
      end
    else (Ok unclassified_response, st1).
Proof.
  intros Himg Ha. unfold predict_body, bind, lift. rewrite Himg, Ha.
  destruct (in_dog_cat a); [|reflexivity].
  destruct (classify_breed img a st1) as [[[info|]|e] st2]; try reflexivity.
  destruct (truthy (bi_breed info)); [|reflexivity].
  unfold dict_setitem. now destruct (hashable (bi_breed info)).
Qed.

Lemma batch_body_eq (file : UploadFile) (acc : accumulators) (st st1 : State)
  (img a : string) :
  base64_image file = Ok img ->
  classify_animal img st = (Ok a, st1) ->
  batch_body file acc st
  = if in_dog_cat a then
      match classify_breed img a st1 with
      | (Ok (Some info), st2) =>
          if truthy (bi_breed info) then
            if hashable (bi_breed info) then
              (Ok (dict_add (bi_breed info) (record_of info a) (fst acc),
                   snd acc), st2)
            else (Raise TypeError, st2)
          else (Ok (fst acc, (snd acc ++ [placeholder])%list), st2)
      | (Ok None, st2) => (Ok (fst acc, (snd acc ++ [placeholder])%list), st2)
      | (Raise e, st2) => (Raise e, st2)
      end
    else (Ok (fst acc, (snd acc ++ [placeholder])%list), st1).
Proof.
  intros Himg Ha. destruct acc as [cd ui].
  unfold batch_body, bind. unfold lift at 1. rewrite Himg, Ha.
  destruct (in_dog_cat a); [|reflexivity].
  destruct (classify_breed img a st1) as [[[info|]|e] st2]; try reflexivity.
  destruct (truthy (bi_breed info)); [|reflexivity].
  destruct (hashable (bi_breed info)) eqn:Hh.
  - pose proof (append_or_create (bi_breed info) (record_of info a) cd Hh)
      as H.
    unfold lift, ret. simpl.
    destruct (dict_contains (bi_breed info) cd) as [[|]|e]; try discriminate;
      fold (record_of info a); rewrite H; reflexivity.
  - unfold lift, dict_contains. now rewrite Hh.
Qed.

(** A body that cannot read or encode its file raises before any call. *)
Lemma predict_body_no_image (file : UploadFile) (st : State) (e : exn) :
  base64_image file = Raise e -> predict_body file st = (Raise e, st).
Proof. intros H. unfold predict_body, bind, lift. now rewrite H. Qed.

Lemma batch_body_no_image (file : UploadFile) (acc : accumulators)
  (st : State) (e : exn) :
  base64_image file = Raise e -> batch_body file acc st = (Raise e, st).
Proof.
  intros H. destruct acc. unfold batch_body, bind, lift. now rewrite H.
Qed.


(** When [classify_animal] raises, so do the bodies, at once. *)
Lemma bodies_species_raise (file : UploadFile) (acc : accumulators)
  (st st1 : State) (img : string) (e : exn) :
  base64_image file = Ok img ->
  classify_animal img st = (Raise e, st1) ->
  predict_body file st = (Raise e, st1)
  /\ batch_body file acc st = (Raise e, st1).
Proof.
  intros Himg Ha. destruct acc as [cd ui].
  split; [unfold predict_body | unfold batch_body];
    unfold bind, lift; rewrite Himg; cbv beta iota; now rewrite Ha.
Qed.

Lemma placeholder_trace_refl (st : State) : placeholder_trace st st.
Proof using Type.
  split.
  - exists []. rewrite app_nil_r. split; [reflexivity | simpl; lia].
  - exists []. rewrite app_nil_r. repeat split; [simpl; lia | constructor].
Qed.

Lemma placeholder_trace_logged (st st' : State) (p : printed) :
  placeholder_trace st st' -> stdout st' = stdout st ->
  placeholder_trace st (logged st' p).
Proof using Type.
  intros [_ Hc] Hs. split; [|exact Hc].
  exists [p]. simpl. rewrite Hs. split; [reflexivity | lia].
Qed.

(** The traces of the first call and of the two calls. *)
Lemma trace_one_call (img : string) (st : State) (w : World) :
  placeholder_trace st (called st w blip2 (species_input img)).
Proof using Type.
  split.
  - exists []. simpl. rewrite app_nil_r. split; [reflexivity | simpl; lia].
  - exists [(blip2, species_input img)]. simpl.
    repeat split; [lia|]. constructor; [|constructor].
    left. now exists img.
Qed.

Lemma trace_two_calls (img a : string) (st : State) (w1 w2 : World) :
  placeholder_trace st
    (called (called st w1 blip2 (species_input img)) w2
       image_classification (breed_input img (breed_model_name a))).
Proof using Type.
  split.
  - exists []. simpl. rewrite app_nil_r. split; [reflexivity | simpl; lia].
  - exists [(blip2, species_input img);
            (image_classification, breed_input img (breed_model_name a))].
    simpl. rewrite <- app_assoc. repeat split; [lia|].
    constructor; [left; now exists img|].
    constructor; [apply breed_model_name_known | constructor].
Qed.

(** The bodies of the two handlers on one file, side by side: a record
    for both, a placeholder for both, or the same exception from both, with
    the trace left so far. *)
Lemma bodies_cases (file : UploadFile) (acc : accumulators) (st : State) :
  exists st1,
    (exists img a info w1 w2,
        base64_image file = Ok img
        /\ in_dog_cat a = true
        /\ truthy (bi_breed info) = true
        /\ hashable (bi_breed info) = true
        /\ st1 = called (called st w1 blip2 (species_input img)) w2
                   image_classification
                   (breed_input img (breed_model_name a))
        /\ predict_body file st
           = (Ok {| classified := [(bi_breed info, [record_of info a])];
                    unclassified := [] |}, st1)
        /\ batch_body file acc st
           = (Ok (dict_add (bi_breed info) (record_of info a) (fst acc),
                  snd acc), st1))
    \/ (placeholder_trace st st1
        /\ predict_body file st = (Ok unclassified_response, st1)
        /\ batch_body file acc st
           = (Ok (fst acc, (snd acc ++ [placeholder])%list), st1))
    \/ (exists e,
          placeholder_trace st st1 /\ stdout st1 = stdout st
          /\ predict_body file st = (Raise e, st1)
          /\ batch_body file acc st = (Raise e, st1)).
Proof.
  destruct (base64_image file) as [img|e] eqn:Himg.
  2:{ exists st. right; right. exists e.
      rewrite (predict_body_no_image _ _ _ Himg),
              (batch_body_no_image _ acc _ _ Himg).
      split; [apply placeholder_trace_refl | repeat split]. }
  destruct (classify_animal_cases img st)
    as [w1 [[a Ha] | [[e [_ Ha]] | [e [e' [_ Ha]]]]]].
  3:{ destruct (bodies_species_raise file acc _ _ _ _ Himg Ha) as [-> ->].
      eexists. right; right. exists e'.
      split; [apply trace_one_call | repeat split]. }
  2:{ rewrite (predict_body_eq _ _ _ _ _ Himg Ha),
              (batch_body_eq _ acc _ _ _ _ Himg Ha). simpl.
      eexists. right; left. split; [|split; reflexivity].
      apply placeholder_trace_logged; [apply trace_one_call | reflexivity]. }
  rewrite (predict_body_eq _ _ _ _ _ Himg Ha),
          (batch_body_eq _ acc _ _ _ _ Himg Ha).
  destruct (in_dog_cat a) eqn:Hdc.
  2:{ eexists. right; left. split; [apply trace_one_call | split; reflexivity]. }
  destruct (classify_breed_cases img a
              (called st w1 blip2 (species_input img)) Hdc)
    as [w2 [[o Hb] | [[e [_ Hb]] | [e [e' [_ Hb]]]]]]; rewrite Hb.
  3:{ eexists. right; right. exists e'.
      split; [apply trace_two_calls | repeat split]. }
  2:{ eexists. right; left. split; [|split; reflexivity].
      apply placeholder_trace_logged; [apply trace_two_calls | reflexivity]. }
  destruct o as [info|].
  2:{ eexists. right; left.
      split; [apply trace_two_calls | split; reflexivity]. }
  destruct (truthy (bi_breed info)) eqn:Ht.
  2:{ eexists. right; left.
      split; [apply trace_two_calls | split; reflexivity]. }
  destruct (hashable (bi_breed info)) eqn:Hh.
  - eexists. left. exists img, a, info, w1, w2.
    repeat split; assumption.
  - eexists. right; right. exists TypeError.
    split; [apply trace_two_calls | repeat split].
Qed.

(** The two handlers on one file, side by side: [predict] and one turn of
    the loop of [batch_predict] end alike, in the same state.  They raise
    only what a [print] raised. *)
Lemma handlers_cases (file : UploadFile) (acc : accumulators) (st : State) :
  exists st',
    (exists img a info w1 w2,
        base64_image file = Ok img
        /\ in_dog_cat a = true
        /\ truthy (bi_breed info) = true
        /\ hashable (bi_breed info) = true
        /\ st' = called (called st w1 blip2 (species_input img)) w2
                   image_classification
                   (breed_input img (breed_model_name a))
        /\ predict file st
           = (Ok {| classified := [(bi_breed info, [record_of info a])];
                    unclassified := [] |}, st')
        /\ batch_step file acc st
           = (Ok (dict_add (bi_breed info) (record_of info a) (fst acc),
                  snd acc), st'))
    \/ (placeholder_trace st st'
        /\ predict file st = (Ok unclassified_response, st')
        /\ batch_step file acc st
           = (Ok (fst acc, (snd acc ++ [placeholder])%list), st'))
    \/ (exists e p out,
          stdout_write p out = Some e
          /\ placeholder_trace st st'
          /\ predict file st = (Raise e, st')
          /\ batch_step file acc st = (Raise e, st')).
Proof.
  unfold predict, batch_step, try_except.
  destruct (bodies_cases file acc st)
    as [st1 [C | [(T & -> & ->) | (e & T & S & -> & ->)]]].
  - destruct C as (img & a & info & w1 & w2 & Hi & Ha & Ht & Hh & E & -> & ->).
    exists st1. left. exists img, a, info, w1, w2.
    split; [exact Hi|]. split; [exact Ha|]. split; [exact Ht|].
    split; [exact Hh|]. split; [exact E|]. split; reflexivity.
  - exists st1. right; left. split; [exact T|]. split; reflexivity.
  - rewrite !report_eq.
    destruct (stdout_write (ImageError e) (stdout st1)) as [e'|] eqn:W.
    + exists st1. right; right. exists e', (ImageError e), (stdout st1).
      split; [exact W|]. split; [exact T|]. split; reflexivity.
    + eexists. right; left. split; [|split; reflexivity].
      now apply placeholder_trace_logged.
Qed.

(** On a standard output that takes every line the handlers return. *)
Lemma handlers_total (file : UploadFile) (acc : accumulators) (st : State) :
  writable ->
  exists st',
    (exists img a info w1 w2,
        base64_image file = Ok img
        /\ in_dog_cat a = true
        /\ truthy (bi_breed info) = true
        /\ hashable (bi_breed info) = true
        /\ st' = called (called st w1 blip2 (species_input img)) w2
                   image_classification
                   (breed_input img (breed_model_name a))
        /\ predict file st
           = (Ok {| classified := [(bi_breed info, [record_of info a])];
                    unclassified := [] |}, st')
        /\ batch_step file acc st
           = (Ok (dict_add (bi_breed info) (record_of info a) (fst acc),
                  snd acc), st'))
    \/ (placeholder_trace st st'
        /\ predict file st = (Ok unclassified_response, st')
        /\ batch_step file acc st
           = (Ok (fst acc, (snd acc ++ [placeholder])%list), st')).
Proof.
  intros Wr.
  destruct (handlers_cases file acc st)
    as [st' [C | [P | (e & p & out & W & _)]]].
  - exists st'. now left.
  - exists st'. now right.
  - rewrite Wr in W. discriminate.
Qed.

(** What a turn of the loop that returns has done, and what [predict]
    has returned when it returns. *)
Lemma batch_step_ok (file : UploadFile) (acc acc' : accumulators)
  (st st' : State) :
  batch_step file acc st = (Ok acc', st') -> one_entry acc acc'.
Proof.
  intros H.
  destruct (handlers_cases file acc st)
    as [st1 [C | [(_ & _ & Hb) | (e & p & out & _ & _ & _ & Hb)]]];
    [|rewrite Hb in H; injection H as <- _; now right
     |rewrite Hb in H; discriminate].
  destruct C as (img & a & info & w1 & w2 & _ & _ & _ & Hh & _ & _ & Hb).
  rewrite Hb in H. injection H as <- _. left. eauto.
Qed.

Lemma predict_ok (file : UploadFile) (st st' : State)
  (r : AnimalClassificationResponse) :
  predict file st = (Ok r, st') ->
  (exists k rec, hashable k = true
                 /\ r = {| classified := [(k, [rec])]; unclassified := [] |})
  \/ r = unclassified_response.
Proof.
  intros H.
  destruct (handlers_cases file ([], []) st)
    as [st1 [C | [(_ & Hp & _) | (e & p & out & _ & _ & Hp & _)]]];
    [|rewrite Hp in H; injection H as <- _; now right
     |rewrite Hp in H; discriminate].
  destruct C as (img & a & info & w1 & w2 & _ & _ & _ & Hh & _ & Hp & _).
  rewrite Hp in H. injection H as <- _. left. eauto.
Qed.

Lemma batch_step_total (file : UploadFile) (acc : accumulators) (st : State) :
  writable ->
  exists acc' st',
    batch_step file acc st = (Ok acc', st') /\ one_entry acc acc'.
Proof.
  intros Wr.
  destruct (handlers_total file acc st Wr) as [st' [C | (_ & _ & Hb)]].
  - destruct C as (img & a & info & w1 & w2 & _ & _ & _ & Hh & _ & _ & Hb).
    eexists _, _. split; [exact Hb|]. left. eauto.
  - eexists _, _. split; [exact Hb|]. now right.
Qed.

Lemma predict_total (file : UploadFile) (st : State) :
  writable ->
  exists r st',
    predict file st = (Ok r, st')
    /\ ((exists k rec, hashable k = true
                       /\ r = {| classified := [(k, [rec])];
                                 unclassified := [] |})
        \/ r = unclassified_response).
Proof.
  intros Wr.
  destruct (handlers_total file ([], []) st Wr) as [st' [C | (_ & Hp & _)]].
  - destruct C as (img & a & info & w1 & w2 & _ & _ & _ & Hh & _ & Hp & _).
    eexists _, _. split; [exact Hp|]. left. eauto.
  - eexists _, _. split; [exact Hp|]. now right.
Qed.

(* ================================================================== *)
(** ** The loop of batch_predict *)


Lemma batch_loop_count (files : list UploadFile) :
  forall (acc acc' : accumulators) (st st' : State),
    batch_loop files acc st = (Ok acc', st') ->
    (record_count (fst acc') + List.length (snd acc')
     = record_count (fst acc) + List.length (snd acc)
       + List.length files)%nat.
Proof.
  induction files as [|file rest IH]; intros acc acc' st st'; simpl.
  - intros [= <- _]. lia.
  - unfold bind.
    destruct (batch_step file acc st) as [[acc1|e] st1] eqn:H1;
      [|discriminate].
    intros H2. apply batch_step_ok, one_entry_count in H1.
    apply IH in H2. lia.
Qed.

Lemma batch_loop_total (files : list UploadFile) :
  writable ->
  forall (acc : accumulators) (st : State),
  exists acc' st',
    batch_loop files acc st = (Ok acc', st')
    /\ (record_count (fst acc') + List.length (snd acc')
        = record_count (fst acc) + List.length (snd acc)
          + List.length files)%nat.
Proof.
  intros Wr.
  induction files as [|file rest IH]; intros acc st.
  - exists acc, st. split; [reflexivity | simpl; lia].
  - destruct (batch_step_total file acc st Wr) as [acc1 [st1 [H1 _]]].
    destruct (IH acc1 st1) as [acc2 [st2 [H2 _]]].
    assert (H : batch_loop (file :: rest) acc st = (Ok acc2, st2))
      by (simpl; unfold bind; now rewrite H1).
    exists acc2, st2. split; [exact H|].
    apply (batch_loop_count _ _ _ _ _ H).
Qed.



Lemma batch_loop_invariant (files : list UploadFile) :
  forall (acc acc' : accumulators) (st st' : State),
    batch_loop files acc st = (Ok acc', st') ->
    well_formed (fst acc) -> Forall (eq placeholder) (snd acc) ->
    well_formed (fst acc') /\ Forall (eq placeholder) (snd acc').
Proof.
  induction files as [|file rest IH]; intros acc acc' st st'; simpl.
  - intros [= <- _]. now split.
  - unfold bind.
    destruct (handlers_cases file acc st)
      as [st1 [C | [(_ & _ & ->) | (e & p & out & _ & _ & _ & ->)]]];
      [| |discriminate].
    + destruct C as (img & a & info & w1 & w2 & _ & Ha & Ht & Hh & _ & _ & ->).
      intros H Hw Hu. apply (IH _ _ _ _ H); simpl; [|exact Hu].
      now apply well_formed_add.
    + intros H Hw Hu. apply (IH _ _ _ _ H); simpl; [exact Hw|].
      apply Forall_app. split; [exact Hu | now repeat constructor].
Qed.

(** The trace of the loop, whether it returns or raises. *)
Lemma batch_loop_trace (files : list UploadFile) :
  forall (acc : accumulators) (st : State),
    exists cs lines,
      calls (snd (batch_loop files acc st)) = (calls st ++ cs)%list
      /\ (List.length cs <= 2 * List.length files)%nat
      /\ Forall known_call cs
      /\ stdout (snd (batch_loop files acc st)) = (stdout st ++ lines)%list
      /\ (forall acc', fst (batch_loop files acc st) = Ok acc' ->
          (List.length (snd acc) + List.length lines
           <= List.length (snd acc'))%nat).
Proof.
  induction files as [|file rest IH]; intros acc st; simpl.
  - exists [], []. rewrite !app_nil_r.
    repeat split; simpl; try lia; [constructor|].
    intros acc' [= <-]. lia.
  - unfold bind.
    destruct (handlers_cases file acc st)
      as [st1 [C | [(T & _ & ->) | (e & p & out & _ & T & _ & ->)]]].
    + destruct C as (img & a & info & w1 & w2 & _ & _ & _ & _ & -> & _ & ->).
      match goal with
      | |- context [batch_loop rest ?A ?S] =>
          destruct (IH A S) as (cs & lines & Hc & Hl & Hk & Hs & Hu)
      end.
      exists ((blip2, species_input img)
              :: (image_classification, breed_input img (breed_model_name a))
              :: cs), lines.
      simpl in Hc, Hs, Hu |- *. rewrite Hc, Hs, <- !app_assoc. simpl.
      repeat split; try lia; [|exact Hu].
      constructor; [left; now exists img|].
      constructor; [apply breed_model_name_known | exact Hk].
    + destruct T as [[l1 [Hs1 Hl1]] [c1 [Hc1 [Hn1 Hk1]]]].
      match goal with
      | |- context [batch_loop rest ?A ?S] =>
          destruct (IH A S) as (cs & lines & Hc & Hl & Hk & Hs & Hu)
      end.
      exists (c1 ++ cs)%list, (l1 ++ lines)%list.
      rewrite Hc, Hc1, Hs, Hs1, <- !app_assoc, !length_app.
      repeat split; try lia; [now apply Forall_app|].
      intros acc' E. specialize (Hu acc' E). simpl in Hu.
      rewrite length_app in Hu. simpl in Hu. lia.
    + destruct T as [[l1 [Hs1 Hl1]] [c1 [Hc1 [Hn1 Hk1]]]].
      exists c1, l1. simpl. repeat split; try assumption; try lia.
      intros acc' E. discriminate.
Qed.
(* ================================================================== *)
(** ** The handlers: what they call *)

(** What [predict] and one turn of [batch_predict] do once the breed
    lookup has come back empty. *)
Lemma no_breed_unclassified (file : UploadFile) (img a : string)
  (acc : accumulators) (st st1 st2 : State) :
  base64_image file = Ok img ->
  classify_animal img st = (Ok a, st1) ->
  classify_breed img a st1 = (Ok None, st2) ->
  predict file st = (Ok unclassified_response, st2)
  /\ batch_step file acc st
     = (Ok (fst acc, (snd acc ++ [placeholder])%list), st2).
Proof.
  intros Himg Ha Hb.
  unfold predict, batch_step, try_except.
  rewrite (predict_body_eq _ _ _ _ _ Himg Ha),
          (batch_body_eq _ acc _ _ _ _ Himg Ha), Hb.
  destruct (in_dog_cat a) eqn:E; [split; reflexivity|].
  rewrite (classify_breed_skip _ _ _ E) in Hb. injection Hb as <-.
  split; reflexivity.
Qed.

(** A turn of the loop for an image that gets a breed. *)
Lemma batch_step_classified (file : UploadFile) (img a : string)
  (info : BreedInfo) (acc : accumulators) (st st1 st2 : State) :
  base64_image file = Ok img ->
  classify_animal img st = (Ok a, st1) ->
  in_dog_cat a = true ->
  classify_breed img a st1 = (Ok (Some info), st2) ->
  truthy (bi_breed info) = true ->
  hashable (bi_breed info) = true ->
  batch_step file acc st
  = (Ok (dict_add (bi_breed info) (record_of info a) (fst acc), snd acc), st2).
Proof.
  intros Himg Ha Hdc Hb Ht Hh. unfold batch_step, try_except.
  now rewrite (batch_body_eq _ acc _ _ _ _ Himg Ha), Hdc, Hb, Ht, Hh.
Qed.

(** The calls of a handler for a file it could encode: the species
    question, and the breed model when the label is dog or cat; the same
    for both handlers, whatever is printed or raised. *)
Lemma handler_calls (file : UploadFile) (acc : accumulators) (img : string)
  (st : State) :
  base64_image file = Ok img ->
  calls (snd (batch_step file acc st)) = calls (snd (predict file st))
  /\ calls (snd (predict file st))
     = (calls st
        ++ (blip2, species_input img)
           :: match fst (classify_animal img st) with
              | Ok a =>
                  if in_dog_cat a
                  then [(image_classification,
                         breed_input img (breed_model_name a))]
                  else []
              | Raise _ => []
              end)%list.
Proof.
  intros Himg.
  pose proof (classify_animal_calls img st) as Hc.
  unfold predict, batch_step, try_except.
  destruct (classify_animal img st) as [[a|e] st1] eqn:Ha; simpl in Hc |- *.
  2:{ destruct (bodies_species_raise file acc _ _ _ _ Himg Ha) as [-> ->].
      rewrite !(proj1 (report_calls _ _ _)). now split. }
  rewrite (predict_body_eq _ _ _ _ _ Himg Ha),
          (batch_body_eq _ acc _ _ _ _ Himg Ha).
  destruct (in_dog_cat a) eqn:Hdc; [|now split].
  pose proof (classify_breed_calls_exact img a st1 Hdc) as Hc2.
  rewrite Hc, <- app_assoc in Hc2. simpl in Hc2.
  destruct (classify_breed img a st1) as [[[info|]|e] st2]; simpl in Hc2.
  - destruct (truthy (bi_breed info)); [|now split].
    destruct (hashable (bi_breed info)); [now split|].
    rewrite !(proj1 (report_calls _ _ _)). now split.
  - now split.
  - rewrite !(proj1 (report_calls _ _ _)). now split.
Qed.

(* ================================================================== *)
(** ** The claims *)

(** C1. Every image gives exactly one entry.  A turn of the loop of
    [batch_predict] that returns has either added one record under one key
    of [classified_data] and left [unclassified_images] as it was, or added
    one placeholder and left [classified_data] as it was, never both; so in
    every result of [batch_predict] the records of [classified] and the
    placeholders of [unclassified] together number the files, and in every
    result of [predict], which handles one image, they number one.  On a
    standard output that takes every line each turn and each handler does
    return such a result. *)
Theorem every_image_one_entry :
  (forall (file : UploadFile) (acc acc' : accumulators) (st st' : State),
      batch_step file acc st = (Ok acc', st') ->
      ((exists k r, hashable k = true
                    /\ acc' = (dict_add k r (fst acc), snd acc)
                    /\ dict_get k (fst acc')
                       = Some (records_at k (fst acc) ++ [r])%list)
       \/ acc' = (fst acc, (snd acc ++ [placeholder])%list))
      /\ ~ ((exists k r, acc' = (dict_add k r (fst acc), snd acc))
            /\ acc' = (fst acc, (snd acc ++ [placeholder])%list)))
  /\ (forall (files : list UploadFile) (st st' : State)
             (r : AnimalClassificationResponse),
        batch_predict files st = (Ok r, st') ->
        (record_count (classified r) + List.length (unclassified r)
         = List.length files)%nat)
  /\ (forall (file : UploadFile) (st st' : State)
             (r : AnimalClassificationResponse),
        predict file st = (Ok r, st') ->
        (record_count (classified r) + List.length (unclassified r)
         = 1)%nat)
  /\ (writable ->
  (forall (file : UploadFile) (acc : accumulators) (st : State),
      exists acc' st',
        batch_step file acc st = (Ok acc', st')
        /\ ((exists k r, hashable k = true
                         /\ acc' = (dict_add k r (fst acc), snd acc)
                         /\ dict_get k (fst acc')
                            = Some (records_at k (fst acc) ++ [r])%list)
            \/ acc' = (fst acc, (snd acc ++ [placeholder])%list))
        /\ ~ ((exists k r, acc' = (dict_add k r (fst acc), snd acc))
              /\ acc' = (fst acc, (snd acc ++ [placeholder])%list)))
  /\ (forall (files : list UploadFile) (st : State),
        exists r st',
          batch_predict files st = (Ok r, st')
          /\ (record_count (classified r) + List.length (unclassified r)
              = List.length files)%nat)
  /\ (forall (file : UploadFile) (st : State),
        exists r st',
          predict file st = (Ok r, st')
          /\ (record_count (classified r) + List.length (unclassified r)
              = 1)%nat)).
Proof.
  assert (S : forall file acc acc' st st',
             batch_step file acc st = (Ok acc', st') ->
             ((exists k r, hashable k = true
                           /\ acc' = (dict_add k r (fst acc), snd acc)
                           /\ dict_get k (fst acc')
                              = Some (records_at k (fst acc) ++ [r])%list)
              \/ acc' = (fst acc, (snd acc ++ [placeholder])%list))
             /\ ~ ((exists k r, acc' = (dict_add k r (fst acc), snd acc))
                   /\ acc' = (fst acc, (snd acc ++ [placeholder])%list))).
  { intros file acc acc' st st' H. split; [|apply one_entry_not_both].
    destruct (batch_step_ok _ _ _ _ _ H) as [[k [r [Hk ->]]] | ->];
      [left | now right].
    exists k, r. split; [exact Hk|]. split; [reflexivity|].
    now apply dict_get_store_same. }
  assert (B : forall files st st' r,
             batch_predict files st = (Ok r, st') ->
             (record_count (classified r) + List.length (unclassified r)
              = List.length files)%nat).
  { intros files st st' r. unfold batch_predict, bind.
    destruct (batch_loop files ([], []) st) as [[acc|e] st1] eqn:H;
      [|discriminate].
    intros [= <- _]. apply batch_loop_count in H. simpl in *. lia. }
  assert (P : forall file st st' r,
             predict file st = (Ok r, st') ->
             (record_count (classified r) + List.length (unclassified r)
              = 1)%nat).
  { intros file st st' r H.
    destruct (predict_ok _ _ _ _ H) as [[k [rec [_ ->]]] | ->]; reflexivity. }
  split; [exact S|]. split; [exact B|]. split; [exact P|].
  intros Wr. split; [|split].
  - intros file acc st.
    destruct (batch_step_total file acc st Wr) as [acc' [st' [H _]]].
    exists acc', st'. split; [exact H | exact (S _ _ _ _ _ H)].
  - intros files st. unfold batch_predict, bind.
    destruct (batch_loop_total files Wr ([], []) st) as [acc [st' [H E]]].
    rewrite H. eexists _, _. split; [reflexivity|]. simpl in *. lia.
  - intros file st.
    destruct (predict_total file st Wr) as [r [st' [H _]]].
    exists r, st'. split; [exact H | exact (P _ _ _ _ H)].
Qed.

(** C10. Every result of [predict] holds one outcome: one key of
    [classified] with a list of one record and an empty [unclassified], or
    an empty [classified] and one empty placeholder in [unclassified].  On
    a standard output that takes every line [predict] does return such a
    result. *)
Theorem predict_single_outcome (file : UploadFile) (st : State) :
  (forall r st',
      predict file st = (Ok r, st') ->
      (exists k rec, classified r = [(k, [rec])] /\ unclassified r = [])
      \/ (classified r = [] /\ unclassified r = [PDict []]))
  /\ (writable ->
  exists r st',
    predict file st = (Ok r, st')
    /\ ((exists k rec, classified r = [(k, [rec])] /\ unclassified r = [])
        \/ (classified r = [] /\ unclassified r = [PDict []]))).
Proof.
  assert (P : forall r st',
             predict file st = (Ok r, st') ->
             (exists k rec, classified r = [(k, [rec])] /\ unclassified r = [])
             \/ (classified r = [] /\ unclassified r = [PDict []])).
  { intros r st' H.
    destruct (predict_ok _ _ _ _ H) as [[k [rec [_ ->]]] | ->].
    - left. exists k, rec. split; reflexivity.
    - right. split; reflexivity. }
  split; [exact P|]. intros Wr.
  destruct (predict_total file st Wr) as [r [st' [H _]]].
  exists r, st'. split; [exact H | exact (P _ _ H)].
Qed.

(** C2, as amended. For a textual answer [s] of the species call,
    [classify_animal] works on [n], the answer trimmed and then lowercased.
    It returns "unclassified" if [n] is empty, is "other" or contains
    "cannot", "not sure" or "unclear", and [n] itself otherwise, whatever
    [n] is.  So the result is "unclassified" exactly when one of these
    holds or [n] is itself the text "unclassified".  "Dog", " dog " and
    "DOG" give "dog"; "not sure", "", "other" and "I cannot tell" give
    "unclassified". *)
Theorem classify_animal_normalizes (img s : string) (st : State) (w : World) :
  replicate_run blip2 (species_input img) (world st) = (Ok (PStr s), w) ->
  let n := lower (strip s) in
  (uncertain n -> fst (classify_animal img st) = Ok "unclassified")
  /\ (~ uncertain n -> fst (classify_animal img st) = Ok n)
  /\ (fst (classify_animal img st) = Ok "unclassified"
      <-> uncertain n \/ n = "unclassified")
  /\ (In s ["Dog"; " dog "; "DOG"] ->
      fst (classify_animal img st) = Ok "dog")
  /\ (In s ["not sure"; ""; "other"; "I cannot tell"] ->
      fst (classify_animal img st) = Ok "unclassified").
Proof.
  intros H n. rewrite (classify_animal_text _ _ _ _ H). fold n. simpl fst.
  repeat split.
  - intros U. apply no_answer_spec in U. now rewrite U.
  - intros U. apply no_answer_false in U. now rewrite U.
  - destruct (no_answer n) eqn:E.
    + intros _. left. now apply no_answer_spec.
    + intros [= ->]. now right.
  - destruct (no_answer n) eqn:E; [reflexivity|].
    intros [U | ->]; [|reflexivity].
    apply no_answer_spec in U. congruence.
  - subst n. simpl. intros [<- | [<- | [<- | []]]]; reflexivity.
  - subst n. simpl. intros [<- | [<- | [<- | [<- | []]]]]; reflexivity.
Qed.


(** The first call of a handler that could encode its file is the species
    question about the embedded image. *)
Lemma predict_first_call (file : UploadFile) (img : string) (st : State) :
  base64_image file = Ok img ->
  exists more,
    calls (snd (predict file st))
    = (calls st ++ (blip2, species_input img) :: more)%list.
Proof.
  intros Himg.
  destruct (handler_calls file ([], []) img st Himg) as [_ H].
  eexists. exact H.
Qed.

Lemma batch_step_first_call (file : UploadFile) (img : string)
  (acc : accumulators) (st : State) :
  base64_image file = Ok img ->
  exists more,
    calls (snd (batch_step file acc st))
    = (calls st ++ (blip2, species_input img) :: more)%list.
Proof.
  intros Himg.
  destruct (handler_calls file acc img st Himg) as [E H].
  eexists. rewrite E. exact H.
Qed.

(** C9. For every byte buffer [b] and every content type ["image/" ++ sub]
    (the subtype [sub] being what follows the slash, so without a slash of
    its own), the encoding step gives exactly
    ["data:image/" ++ sub ++ ";base64," ++ b64encode b]; the bytes are not
    looked at.  The type before the slash is not looked at either: any
    content type that ends in a slash and [sub] gives the same text.  This
    text is the image both handlers put to the provider first. *)
Theorem embedded_image_format (b : list byte) (sub : string) :
  free_of "/" sub = true ->
  let file := {| read := Ok b; content_type := Some ("image/" ++ sub) |} in
  let img := "data:image/" ++ sub ++ ";base64," ++ b64encode b in
  base64_image file = Ok img
  /\ (forall type,
        base64_image {| read := Ok b;
                        content_type := Some (type ++ "/" ++ sub) |}
        = Ok img)
  /\ (forall st, exists more,
        calls (snd (predict file st))
        = (calls st ++ (blip2, species_input img) :: more)%list)
  /\ (forall acc st, exists more,
        calls (snd (batch_step file acc st))
        = (calls st ++ (blip2, species_input img) :: more)%list).
Proof.
  intros Hsub file img.
  assert (Himg : base64_image file = Ok img).
  { unfold base64_image, file. cbn [read content_type].
    now rewrite (content_subtype_image _ Hsub). }
  split; [exact Himg|]. split; [|split].
  - intros type. unfold base64_image, content_subtype. cbn [read content_type].
    change (type ++ "/" ++ sub) with (type ++ String "/" sub).
    now rewrite (last_of_split _ _ _ Hsub).
  - intros st. now apply predict_first_call.
  - intros acc st. now apply batch_step_first_call.
Qed.


(** C4. For a species label other than "dog" and "cat", [classify_breed]
    returns [None] and leaves the state as it was, so calls nothing.  The
    handlers do not even call it: when [classify_animal] returns such a
    label, [predict] answers with the one-placeholder result and
    [batch_predict] adds a placeholder, in the state [classify_animal] left,
    where the only new call is the species question; whatever the provider
    would answer to a breed call is never asked. *)
Theorem other_species_unclassified :
  (forall (img a : string) (st : State),
      a <> "dog" -> a <> "cat" -> classify_breed img a st = (Ok None, st))
  /\ (forall (file : UploadFile) (img a : string) (acc : accumulators)
             (st st1 : State),
        base64_image file = Ok img ->
        classify_animal img st = (Ok a, st1) ->
        a <> "dog" -> a <> "cat" ->
        predict file st
        = (Ok {| classified := []; unclassified := [PDict []] |}, st1)
        /\ batch_step file acc st
           = (Ok (fst acc, (snd acc ++ [PDict []])%list), st1)
        /\ calls st1 = (calls st ++ [(blip2, species_input img)])%list).
Proof.
  split.
  - intros img a st Hd Hc. apply classify_breed_skip.
    now apply in_dog_cat_false.
  - intros file img a acc st st1 Himg Ha Hd Hc.
    assert (E : in_dog_cat a = false) by now apply in_dog_cat_false.
    pose proof (classify_breed_skip img a st1 E) as Hb.
    destruct (no_breed_unclassified file img a acc _ _ _ Himg Ha Hb)
      as [Hp Hs].
    split; [exact Hp|]. split; [exact Hs|].
    pose proof (classify_animal_calls img st) as Hcalls.
    now rewrite Ha in Hcalls.
Qed.



(** C8. Two images of a request that get the same breed end in one list
    of two records under that breed, the first image first.  In general an
    image that gets a breed adds its record
    [{confidence, breed, animal_type}] at the end of the list under its
    breed, a list of this one record when the breed is new; the other lists
    stay as they are, and so does the order of the keys, a new one going
    last. *)
Theorem same_breed_in_order :
  (forall (f1 f2 : UploadFile) (img1 img2 a1 a2 : string) (b c1 c2 : pyval)
          (st s1 s2 s3 s4 : State),
      base64_image f1 = Ok img1 ->
      classify_animal img1 st = (Ok a1, s1) ->
      in_dog_cat a1 = true ->
      classify_breed img1 a1 s1
      = (Ok (Some {| bi_breed := b; bi_confidence := c1 |}), s2) ->
      base64_image f2 = Ok img2 ->
      classify_animal img2 s2 = (Ok a2, s3) ->
      in_dog_cat a2 = true ->
      classify_breed img2 a2 s3
      = (Ok (Some {| bi_breed := b; bi_confidence := c2 |}), s4) ->
      truthy b = true -> hashable b = true ->
      batch_predict [f1; f2] st
      = (Ok {| classified :=
                 [(b, [{| confidence := c1; breed := b; animal_type := a1 |};
                       {| confidence := c2; breed := b; animal_type := a2 |}])];
               unclassified := [] |}, s4))
  /\ (forall (file : UploadFile) (img a : string) (info : BreedInfo)
             (acc : accumulators) (st st1 st2 : State),
        base64_image file = Ok img ->
        classify_animal img st = (Ok a, st1) ->
        in_dog_cat a = true ->
        classify_breed img a st1 = (Ok (Some info), st2) ->
        truthy (bi_breed info) = true ->
        hashable (bi_breed info) = true ->
        exists cd,
          batch_step file acc st = (Ok (cd, snd acc), st2)
          /\ dict_get (bi_breed info) cd
             = Some (records_at (bi_breed info) (fst acc)
                     ++ [{| confidence := bi_confidence info;
                            breed := bi_breed info;
                            animal_type := a |}])%list
          /\ (forall k, key_eqb k (bi_breed info) = false ->
                        dict_get k cd = dict_get k (fst acc))
          /\ map fst cd
             = match dict_get (bi_breed info) (fst acc) with
               | Some _ => map fst (fst acc)
               | None => (map fst (fst acc) ++ [bi_breed info])%list
               end).
Proof.
  split.
  - intros f1 f2 img1 img2 a1 a2 b c1 c2 st s1 s2 s3 s4
      Hi1 Ha1 Hd1 Hb1 Hi2 Ha2 Hd2 Hb2 Ht Hh.
    unfold batch_predict. simpl batch_loop. unfold bind.
    rewrite (batch_step_classified _ _ _ _ _ _ _ _ Hi1 Ha1 Hd1 Hb1 Ht Hh).
    rewrite (batch_step_classified _ _ _ _ _ _ _ _ Hi2 Ha2 Hd2 Hb2 Ht Hh).
    unfold ret, dict_add, records_at, record_of. simpl.
    rewrite (key_eqb_refl b Hh). simpl. rewrite ?(key_eqb_refl b Hh).
    reflexivity.
  - intros file img a info acc st st1 st2 Himg Ha Hdc Hb Ht Hh.
    exists (dict_add (bi_breed info) (record_of info a) (fst acc)).
    split; [now apply (batch_step_classified _ img a info acc st st1 st2)|].
    unfold dict_add. split; [|split].
    + now apply dict_get_store_same.
    + intros k Hk. now apply dict_get_store_other.
    + apply keys_store.
Qed.

(* ================================================================== *)
(** ** Further properties of the handlers *)

(** X1. A request of one file to [batch_predict] is answered as [predict]
    answers the file, and leaves the provider, the call log and standard
    output in the same state. *)
Theorem batch_of_one_is_predict (file : UploadFile) (st : State) :
  batch_predict [file] st = predict file st.
Proof.
  unfold batch_predict. simpl batch_loop. unfold bind.
  destruct (handlers_cases file ([], []) st)
    as [st1 [C | [(_ & -> & ->) | (e & p & out & _ & _ & -> & ->)]]].
  - destruct C as (img & a & info & w1 & w2 & _ & _ & _ & Hh & _ & -> & ->).
    reflexivity.
  - reflexivity.
  - reflexivity.
Qed.

(** X2. One turn of the loop of [batch_predict] merges into the
    accumulators what [predict] answers for the same file from the same
    state: its one record goes under its breed, or its one placeholder goes
    to the end of [unclassified_images]; and both leave the same state.
    When [predict] raises, the turn raises the same exception in the same
    state.  On a standard output that takes every line [predict] answers. *)
Theorem batch_step_merges_predict (file : UploadFile) (acc : accumulators)
  (st : State) :
  (forall r st',
      predict file st = (Ok r, st') ->
      (exists k rec,
          r = {| classified := [(k, [rec])]; unclassified := [] |}
          /\ batch_step file acc st
             = (Ok (dict_add k rec (fst acc), snd acc), st'))
      \/ (r = {| classified := []; unclassified := [PDict []] |}
          /\ batch_step file acc st
             = (Ok (fst acc, (snd acc ++ [PDict []])%list), st')))
  /\ (forall e st',
        predict file st = (Raise e, st') ->
        batch_step file acc st = (Raise e, st'))
  /\ (writable ->
  exists r st',
    predict file st = (Ok r, st')
    /\ ((exists k rec,
            r = {| classified := [(k, [rec])]; unclassified := [] |}
            /\ batch_step file acc st
               = (Ok (dict_add k rec (fst acc), snd acc), st'))
        \/ (r = {| classified := []; unclassified := [PDict []] |}
            /\ batch_step file acc st
               = (Ok (fst acc, (snd acc ++ [PDict []])%list), st')))).
Proof.
  destruct (handlers_cases file acc st)
    as [st1 [C | [(_ & Hp & Hb) | (e & p & out & W & _ & Hp & Hb)]]].
  - destruct C as (img & a & info & w1 & w2 & _ & _ & _ & _ & _ & Hp & Hb).
    split; [|split].
    + intros r st' H. rewrite Hp in H. injection H as <- <-. left. eauto.
    + intros e st' H. rewrite Hp in H. discriminate.
    + intros _. eexists _, st1. split; [exact Hp|]. left. eauto.
  - split; [|split].
    + intros r st' H. rewrite Hp in H. injection H as <- <-.
      right. split; [reflexivity | exact Hb].
    + intros e st' H. rewrite Hp in H. discriminate.
    + intros _. eexists _, st1. split; [exact Hp|].
      right. split; [reflexivity | exact Hb].
  - split; [|split].
    + intros r st' H. rewrite Hp in H. discriminate.
    + intros e0 st' H. rewrite Hp in H. injection H as <- <-. exact Hb.
    + intros Wr. rewrite Wr in W. discriminate.
Qed.

(** X3. What the handlers return is in good order: every key of
    [classified] is a hashable, truthy breed that occurs once, its list is
    not empty, and each record under it carries that breed and the species
    dog or cat; every entry of [unclassified] is the empty placeholder.
    This holds of every result, and on a standard output that takes every
    line the handlers do return one. *)
Theorem classified_well_formed :
  (forall (files : list UploadFile) (st st' : State)
          (r : AnimalClassificationResponse),
      batch_predict files st = (Ok r, st') ->
      well_formed (classified r) /\ Forall (eq (PDict [])) (unclassified r))
  /\ (forall (file : UploadFile) (st st' : State)
             (r : AnimalClassificationResponse),
        predict file st = (Ok r, st') ->
        well_formed (classified r) /\ Forall (eq (PDict [])) (unclassified r))
  /\ (writable ->
  (forall (files : list UploadFile) (st : State),
      exists r st',
        batch_predict files st = (Ok r, st')
        /\ well_formed (classified r)
        /\ Forall (eq (PDict [])) (unclassified r))
  /\ (forall (file : UploadFile) (st : State),
        exists r st',
          predict file st = (Ok r, st')
          /\ well_formed (classified r)
          /\ Forall (eq (PDict [])) (unclassified r))).
Proof.
  assert (B : forall files st st' r,
             batch_predict files st = (Ok r, st') ->
             well_formed (classified r)
             /\ Forall (eq (PDict [])) (unclassified r)).
  { intros files st st' r. unfold batch_predict, bind.
    destruct (batch_loop files ([], []) st) as [[acc|e] st1] eqn:H;
      [|discriminate].
    intros [= <- _].
    apply (batch_loop_invariant _ _ _ _ _ H); simpl; [exact I | constructor]. }
  assert (E : forall file st, batch_predict [file] st = predict file st).
  { intros file st. unfold batch_predict. simpl batch_loop. unfold bind.
    destruct (handlers_cases file ([], []) st)
      as [st1 [C | [(_ & -> & ->) | (e & p & out & _ & _ & -> & ->)]]];
      try reflexivity.
    destruct C as (img & a & info & w1 & w2 & _ & _ & _ & Hh & _ & -> & ->).
    reflexivity. }
  assert (P : forall file st st' r,
             predict file st = (Ok r, st') ->
             well_formed (classified r)
             /\ Forall (eq (PDict [])) (unclassified r)).
  { intros file st st' r H. rewrite <- E in H. exact (B _ _ _ _ H). }
  split; [exact B|]. split; [exact P|].
  intros Wr. split.
  - intros files st. unfold batch_predict, bind.
    destruct (batch_loop_total files Wr ([], []) st) as [acc [st' [H _]]].
    rewrite H. eexists _, _. split; [reflexivity|].
    apply (batch_loop_invariant _ _ _ _ _ H); simpl; [exact I | constructor].
  - intros file st.
    destruct (predict_total file st Wr) as [r [st' [H _]]].
    exists r, st'. split; [exact H | exact (P _ _ _ _ H)].
Qed.

(** X4. One image costs at most two calls to the provider, added at the
    end of the call log, so a request of n files costs at most 2n; and each
    call is the species question or the breed model with the dog or the cat
    sub-model: there is no retry, and no other model is called. *)
Theorem provider_calls_bounded :
  (forall (file : UploadFile) (acc : accumulators) (st : State),
      exists cs,
        calls (snd (batch_step file acc st)) = (calls st ++ cs)%list
        /\ calls (snd (predict file st)) = (calls st ++ cs)%list
        /\ (List.length cs <= 2)%nat
        /\ Forall known_call cs)
  /\ (forall (files : list UploadFile) (st : State),
        exists cs,
          calls (snd (batch_predict files st)) = (calls st ++ cs)%list
          /\ (List.length cs <= 2 * List.length files)%nat
          /\ Forall known_call cs).
Proof.
  split.
  - intros file acc st.
    destruct (handlers_cases file acc st)
      as [st1 [C | [(T & -> & ->) | (e & p & out & _ & T & -> & ->)]]].
    + destruct C as (img & a & info & w1 & w2 & _ & _ & _ & _ & -> & -> & ->).
      exists [(blip2, species_input img);
              (image_classification, breed_input img (breed_model_name a))].
      simpl. rewrite <- app_assoc. repeat split; try lia.
      constructor; [left; now exists img|].
      constructor; [apply breed_model_name_known | constructor].
    + destruct T as [_ [cs [Hc [Hl Hk]]]]. exists cs. now repeat split.
    + destruct T as [_ [cs [Hc [Hl Hk]]]]. exists cs. now repeat split.
  - intros files st.
    destruct (batch_loop_trace files ([], []) st)
      as (cs & lines & Hc & Hl & Hk & _).
    exists cs. split; [|now split].
    rewrite <- Hc. unfold batch_predict, bind.
    now destruct (batch_loop files ([], []) st) as [[acc|e] st'].
Qed.

(** X5. Standard output only grows, and by no more lines than there are
    placeholders in the result: every line printed before a request
    returns belongs to an image that ended in [unclassified], and a single
    image that is classified prints nothing.  This holds of every result,
    and on a standard output that takes every line the handlers do return
    one. *)
Theorem errors_only_for_placeholders :
  (forall (files : list UploadFile) (st st' : State)
          (r : AnimalClassificationResponse),
      batch_predict files st = (Ok r, st') ->
      exists lines,
        stdout st' = (stdout st ++ lines)%list
        /\ (List.length lines <= List.length (unclassified r))%nat)
  /\ (forall (file : UploadFile) (st st' : State)
             (r : AnimalClassificationResponse),
        predict file st = (Ok r, st') ->
        exists lines,
          stdout st' = (stdout st ++ lines)%list
          /\ (List.length lines <= List.length (unclassified r))%nat)
  /\ (writable ->
  (forall (files : list UploadFile) (st : State),
      exists r st' lines,
        batch_predict files st = (Ok r, st')
        /\ stdout st' = (stdout st ++ lines)%list
        /\ (List.length lines <= List.length (unclassified r))%nat)
  /\ (forall (file : UploadFile) (st : State),
        exists r st' lines,
          predict file st = (Ok r, st')
          /\ stdout st' = (stdout st ++ lines)%list
          /\ (List.length lines <= List.length (unclassified r))%nat)).
Proof.
  assert (B : forall files st st' r,
             batch_predict files st = (Ok r, st') ->
             exists lines,
               stdout st' = (stdout st ++ lines)%list
               /\ (List.length lines <= List.length (unclassified r))%nat).
  { intros files st st' r. unfold batch_predict, bind.
    destruct (batch_loop_trace files ([], []) st)
      as (cs & lines & _ & _ & _ & Hs & Hu).
    destruct (batch_loop files ([], []) st) as [[acc|e] st1];
      [|discriminate].
    intros [= <- <-]. exists lines. split; [exact Hs|].
    specialize (Hu acc eq_refl). simpl in *. lia. }
  assert (P : forall file st st' r,
             predict file st = (Ok r, st') ->
             exists lines,
               stdout st' = (stdout st ++ lines)%list
               /\ (List.length lines <= List.length (unclassified r))%nat).
  { intros file st st' r H.
    destruct (handlers_cases file ([], []) st)
      as [st1 [C | [(T & Hp & _) | (e & p & out & _ & _ & Hp & _)]]];
      rewrite ?Hp in H.
    - destruct C as (img & a & info & w1 & w2 & _ & _ & _ & _ & -> & Hp & _).
      rewrite Hp in H. injection H as <- <-.
      exists []. simpl. rewrite app_nil_r. split; [reflexivity | lia].
    - injection H as <- <-. destruct T as [[lines [Hs Hl]] _].
      exists lines. split; [exact Hs | exact Hl].
    - discriminate. }
  split; [exact B|]. split; [exact P|].
  intros Wr. split.
  - intros files st. unfold batch_predict, bind.
    destruct (batch_loop_total files Wr ([], []) st) as [acc [st' [H _]]].
    assert (Q : batch_predict files st
                = (Ok {| classified := fst acc; unclassified := snd acc |},
                   st'))
      by (unfold batch_predict, bind; now rewrite H).
    rewrite H. destruct (B _ _ _ _ Q) as [lines [Hs Hl]].
    eexists _, _, lines. split; [reflexivity|]. now split.
  - intros file st.
    destruct (predict_total file st Wr) as [r [st' [H _]]].
    destruct (P _ _ _ _ H) as [lines [Hs Hl]].
    exists r, st', lines. now split.
Qed.

(** X6. An upload that cannot be read, or that declares no content type,
    costs no call to the provider: both handlers leave the call log and the
    provider as they were.  They print the exception and answer with one
    placeholder when the line can be printed, and raise the exception of
    the [print] when it cannot. *)
Theorem no_image_no_call (file : UploadFile) (acc : accumulators)
  (st : State) (e : exn) :
  read file = Raise e
  \/ (content_type file = None /\ e = AttributeError
      /\ exists b, read file = Ok b) ->
  calls (snd (predict file st)) = calls st
  /\ world (snd (predict file st)) = world st
  /\ calls (snd (batch_step file acc st)) = calls st
  /\ world (snd (batch_step file acc st)) = world st
  /\ predict file st
     = match stdout_write (ImageError e) (stdout st) with
       | None =>
           (Ok {| classified := []; unclassified := [PDict []] |},
            logged st (ImageError e))
       | Some e' => (Raise e', st)
       end
  /\ batch_step file acc st
     = match stdout_write (ImageError e) (stdout st) with
       | None =>
           (Ok (fst acc, (snd acc ++ [PDict []])%list),
            logged st (ImageError e))
       | Some e' => (Raise e', st)
       end.
Proof.
  intros H.
  assert (Himg : base64_image file = Raise e).
  { unfold base64_image.
    destruct H as [-> | (-> & -> & b & ->)]; reflexivity. }
  unfold predict, batch_step, try_except.
  rewrite (predict_body_no_image _ _ _ Himg),
          (batch_body_no_image _ acc _ _ Himg), !report_eq.
  destruct (stdout_write (ImageError e) (stdout st)); repeat split.
Qed.

(** X7. The breed model is asked exactly when the species answer, trimmed
    and lowercased, is the very text "dog" or "cat": then the handler makes
    two calls, the second to the sub-model of that species with the same
    image.  Any other text ("a dog", "dog.", "puppy") costs the species
    call alone. *)
Theorem breed_asked_iff_exact_answer (file : UploadFile) (acc : accumulators)
  (img s : string) (st : State) (w : World) :
  base64_image file = Ok img ->
  replicate_run blip2 (species_input img) (world st) = (Ok (PStr s), w) ->
  let n := lower (strip s) in
  (n = "dog" \/ n = "cat" ->
   calls (snd (predict file st))
   = (calls st ++ [(blip2, species_input img);
                   (image_classification,
                    breed_input img (breed_model_name n))])%list
   /\ calls (snd (batch_step file acc st))
      = calls (snd (predict file st)))
  /\ (n <> "dog" -> n <> "cat" ->
      calls (snd (predict file st))
      = (calls st ++ [(blip2, species_input img)])%list
      /\ calls (snd (batch_step file acc st))
         = calls (snd (predict file st))).
Proof.
  intros Himg H n.
  pose proof (classify_animal_text _ _ _ _ H) as Ha. fold n in Ha.
  destruct (handler_calls file acc img st Himg) as [Eb Ep].
  rewrite Ha in Ep. simpl in Ep.
  split.
  - intros Hn.
    assert (E : no_answer n = false) by (destruct Hn as [-> | ->]; reflexivity).
    rewrite E in Ep.
    assert (Hdc : in_dog_cat n = true) by now apply in_dog_cat_true.
    rewrite Hdc in Ep. split; [exact Ep | exact Eb].
  - intros Hd Hc.
    assert (Hdc : in_dog_cat (if no_answer n then "unclassified" else n)
                  = false).
    { destruct (no_answer n); [reflexivity|]. now apply in_dog_cat_false. }
    rewrite Hdc in Ep. split; [exact Ep | exact Eb].
Qed.

(** X8. A top candidate whose label is falsy (an empty text, [None], zero)
    gives a placeholder without a word on standard output.  One whose label
    cannot be a dict key (a non-empty list or object) raises [TypeError] in
    the handler, whose [except] prints it and gives a placeholder too when
    the line can be printed, and raises the exception of the [print] when it
    cannot.  In no case does [classified] change. *)
Theorem bad_label_unclassified (file : UploadFile) (acc : accumulators)
  (img a : string) (info : BreedInfo) (st st1 st2 : State) :
  base64_image file = Ok img ->
  classify_animal img st = (Ok a, st1) ->
  classify_breed img a st1 = (Ok (Some info), st2) ->
  (truthy (bi_breed info) = false ->
   predict file st
   = (Ok {| classified := []; unclassified := [PDict []] |}, st2)
   /\ batch_step file acc st
      = (Ok (fst acc, (snd acc ++ [PDict []])%list), st2))
  /\ (truthy (bi_breed info) = true -> hashable (bi_breed info) = false ->
      predict file st
      = match stdout_write (ImageError TypeError) (stdout st2) with
        | None =>
            (Ok {| classified := []; unclassified := [PDict []] |},
             logged st2 (ImageError TypeError))
        | Some e' => (Raise e', st2)
        end
      /\ batch_step file acc st
         = match stdout_write (ImageError TypeError) (stdout st2) with
           | None =>
               (Ok (fst acc, (snd acc ++ [PDict []])%list),
                logged st2 (ImageError TypeError))
           | Some e' => (Raise e', st2)
           end).
Proof.
  intros Himg Ha Hb.
  assert (Hdc : in_dog_cat a = true).
  { destruct (in_dog_cat a) eqn:E; [reflexivity|].
    rewrite (classify_breed_skip _ _ _ E) in Hb. discriminate. }
  unfold predict, batch_step, try_except.
  rewrite (predict_body_eq _ _ _ _ _ Himg Ha),
          (batch_body_eq _ acc _ _ _ _ Himg Ha), Hdc, Hb.
  split.
  - intros ->. split; reflexivity.
  - intros -> ->. rewrite !report_eq.
    destruct (stdout_write (ImageError TypeError) (stdout st2));
      split; reflexivity.
Qed.

(** X9. A breed answer that is truthy but not a list beginning with an
    object (a text, a number, [True], an object, a list of texts) makes a
    lookup of [classify_breed] raise [TypeError] or [KeyError] after its
    one call; the [except] prints it and returns [None] when the line can
    be printed, and raises the exception of the [print] when it cannot. *)
Theorem classify_breed_malformed_answer (img a : string) (st : State)
  (v : pyval) (w : World) :
  a = "dog" \/ a = "cat" ->
  replicate_run image_classification (breed_input img (breed_model_name a))
    (world st) = (Ok v, w) ->
  truthy v = true ->
  (forall d rest, v <> PList (PDict d :: rest)) ->
  exists e,
    (e = TypeError \/ e = KeyError)
    /\ classify_breed img a st
       = match stdout_write (BreedError e) (stdout st) with
         | None =>
             (Ok None,
              logged (called st w image_classification
                        (breed_input img (breed_model_name a)))
                (BreedError e))
         | Some e' =>
             (Raise e',
              called st w image_classification
                (breed_input img (breed_model_name a)))
         end.
Proof.
  intros Ha H Hv Hshape. apply in_dog_cat_true in Ha.
  rewrite classify_breed_unfold by exact Ha.
  rewrite try_bind, (run_eq _ _ _ _ _ H), Hv.
  assert (K : forall e,
             (print (BreedError e) ;;; ret (@None BreedInfo))
               (called st w image_classification
                  (breed_input img (breed_model_name a)))
             = match stdout_write (BreedError e) (stdout st) with
               | None =>
                   (Ok None,
                    logged (called st w image_classification
                              (breed_input img (breed_model_name a)))
                      (BreedError e))
               | Some e' =>
                   (Raise e',
                    called st w image_classification
                      (breed_input img (breed_model_name a)))
               end)
    by (intros e; now rewrite report_eq).
  unfold lift. rewrite try_bind. cbv beta.
  destruct v as [| b | q | s | l | d]; simpl in Hv |- *;
    try discriminate;
    try (exists TypeError; split; [now left | apply K]).
  - destruct s as [|c s]; [discriminate|]. simpl.
    rewrite try_bind. cbv beta. simpl. rewrite try_bind. cbv beta. simpl.
    exists TypeError. split; [now left | apply K].
  - destruct l as [|x l]; [discriminate|]. simpl.
    rewrite try_bind. cbv beta. simpl. rewrite try_bind. cbv beta.
    destruct x; simpl;
      try (exists TypeError; split; [now left | apply K]).
    now elim (Hshape d l).
  - destruct d as [|p d]; [discriminate|]. simpl.
    rewrite try_bind. cbv beta. simpl.
    exists KeyError. split; [now right | apply K].
Qed.

(** X10. Whatever the provider does, a label [classify_animal] returns is
    a normalized one: not empty, not "other", free of the three markers of
    doubt, and left as it is by trimming and by lowercasing.  On a standard
    output that takes every line it does return one. *)
Theorem label_normalized (img : string) (st : State) :
  (forall label st',
      classify_animal img st = (Ok label, st') ->
      ~ uncertain label /\ lower label = label /\ strip label = label)
  /\ (writable ->
  exists label st',
    classify_animal img st = (Ok label, st')
    /\ ~ uncertain label
    /\ lower label = label
    /\ strip label = label).
Proof.
  assert (U : ~ uncertain "unclassified" /\ lower "unclassified" = "unclassified"
              /\ strip "unclassified" = "unclassified").
  { split; [now apply no_answer_false | split; reflexivity]. }
  assert (P : forall label st',
             classify_animal img st = (Ok label, st') ->
             ~ uncertain label /\ lower label = label /\ strip label = label).
  { intros label st' E.
    destruct (replicate_run blip2 (species_input img) (world st))
      as [r w] eqn:H.
    destruct r as [v|e].
    - destruct v;
        try (rewrite (classify_animal_not_text _ _ _ _ H) in E
               by discriminate;
             destruct (stdout_write _ _); [discriminate|];
             injection E as <- _; exact U).
      rewrite (classify_animal_text _ _ _ _ H) in E. injection E as <- _.
      destruct (no_answer (lower (strip s))) eqn:N; [exact U|].
      split; [|split].
      + now apply no_answer_false.
      + apply lower_idem.
      + now rewrite strip_lower, strip_idem.
    - rewrite (classify_animal_raise _ _ _ _ H) in E.
      destruct (stdout_write _ _); [discriminate|].
      injection E as <- _. exact U. }
  split; [exact P|]. intros Wr.
  destruct (classify_animal_total img st Wr) as [l [st' [H _]]].
  exists l, st'. split; [exact H | exact (P _ _ H)].
Qed.

(** X11. The encoding step fails only when the upload cannot be read (with
    the exception of the read) or declares no content type (with
    [AttributeError]); it never fails on the content type's text or on the
    bytes.  When it succeeds, the text is "data:image/", a piece of the
    content type without a slash, ";base64," and the base64 of the bytes;
    the piece is the whole content type when that has no slash ("png"
    gives "data:image/png"), and what follows its last slash otherwise
    (so "text/plain" gives "data:image/plain"). *)
Theorem embedded_image_any_type (file : UploadFile) :
  match base64_image file with
  | Ok img =>
      exists b ct sub,
        read file = Ok b /\ content_type file = Some ct
        /\ free_of "/" sub = true
        /\ (ct = sub \/ exists type, ct = type ++ "/" ++ sub)
        /\ img = "data:image/" ++ sub ++ ";base64," ++ b64encode b
  | Raise e =>
      read file = Raise e
      \/ (content_type file = None /\ e = AttributeError
          /\ exists b, read file = Ok b)
  end.
Proof.
  unfold base64_image, content_subtype.
  destruct (read file) as [b|e]; [|now left].
  destruct (content_type file) as [ct|].
  - destruct (last_of_split_spec "/" ct) as [sub [-> [Hf Hs]]].
    exists b, ct, sub. repeat split; assumption.
  - right. repeat split. now exists b.
Qed.

(** X12. The base64 text of n bytes has 4 * ceil(n / 3) characters, each of
    the base64 alphabet or the padding [=]; so the embedded image is text
    of a length known from the size of the upload. *)
Theorem b64encode_length (bs : list byte) :
  String.length (b64encode bs) = (4 * ((List.length bs + 2) / 3))%nat
  /\ all_chars b64_symbol (b64encode bs) = true.
Proof. apply (b64encode_shape (List.length bs)). lia. Qed.

(** X13. The whole way of a classified image, from the provider's two
    answers to the result: when the species answer normalizes to "dog" or
    "cat" and the breed answer is a list whose element 0 has a truthy,
    hashable [label] and any [confidence], [predict] returns one record
    under that label, with the confidence as the provider gave it (it is
    not checked to be a number, nor to lie in a range) and the normalized
    species; the second call is made in the state of the provider the
    first one left, and nothing is printed. *)
Theorem predict_classifies (file : UploadFile) (img s : string) (st : State)
  (w1 w2 : World) (d : list (string * pyval)) (rest : list pyval)
  (l c : pyval) :
  base64_image file = Ok img ->
  replicate_run blip2 (species_input img) (world st) = (Ok (PStr s), w1) ->
  let n := lower (strip s) in
  n = "dog" \/ n = "cat" ->
  replicate_run image_classification (breed_input img (breed_model_name n))
    w1 = (Ok (PList (PDict d :: rest)), w2) ->
  assoc "label" d = Some l -> assoc "confidence" d = Some c ->
  truthy l = true -> hashable l = true ->
  predict file st
  = (Ok {| classified :=
             [(l, [{| confidence := c; breed := l; animal_type := n |}])];
           unclassified := [] |},
     {| world := w2;
        calls := (calls st
                  ++ [(blip2, species_input img);
                      (image_classification,
                       breed_input img (breed_model_name n))])%list;
        stdout := stdout st |}).
Proof.
  intros Himg H1 n Hn H2 Hl Hc Ht Hh.
  pose proof (classify_animal_text _ _ _ _ H1) as Ha. fold n in Ha.
  assert (E : no_answer n = false) by (destruct Hn as [-> | ->]; reflexivity).
  rewrite E in Ha.
  assert (Hdc : in_dog_cat n = true) by now apply in_dog_cat_true.
  pose proof (classify_breed_top img n
                (called st w1 blip2 (species_input img)) d rest w2 Hdc H2)
    as Hb.
  rewrite Hl, Hc in Hb.
  unfold predict, try_except.
  rewrite (predict_body_eq _ _ _ _ _ Himg Ha), Hdc, Hb. simpl.
  rewrite Ht, Hh. unfold called, record_of. simpl.
  now rewrite <- app_assoc.
Qed.

End Service.

(* ================================================================== *)
(** ** The claims on a scripted provider *)

(** C2 as first stated does not hold: the answer "unclassified" is none of
    the listed cases, and [classify_animal] hands it back as it is, so it
    returns "unclassified" without any of them. *)
Lemma classify_animal_iff_fails :
  ~ (fst (classify_animal _ scripted_run accepting_stdout
            "data:image/png;base64,"
            {| world := [Ok (PStr "unclassified")];
               calls := []; stdout := [] |})
     = Ok "unclassified"
     <-> uncertain (lower (strip "unclassified"))).
Proof.
  intros [H _]. specialize (H eq_refl).
  apply no_answer_spec in H. discriminate H.
Qed.

(** The answer " dog " of a scripted provider becomes the label "dog". *)
Lemma classify_animal_normalizes_witness :
  scripted_run blip2 (species_input "data:image/png;base64,")
    [Ok (PStr " dog ")] = (Ok (PStr " dog "), [])
  /\ fst (classify_animal _ scripted_run accepting_stdout
            "data:image/png;base64,"
            {| world := [Ok (PStr " dog ")]; calls := []; stdout := [] |})
     = Ok "dog".
Proof.
  split; [reflexivity|].
  apply (classify_animal_normalizes _ scripted_run accepting_stdout
           "data:image/png;base64," " dog "
           {| world := [Ok (PStr " dog ")]; calls := []; stdout := [] |}
           [] eq_refl).
  simpl. auto.
Defined.

(** One unreadable upload and one rabbit on a standard output that takes
    every line: two files, two placeholders. *)
Lemma every_image_one_entry_witness :
  exists r st',
    batch_predict _ scripted_run accepting_stdout
      [{| read := Raise (OtherError "OSError" "closed file");
          content_type := Some "image/png" |};
       {| read := Ok []; content_type := Some "image/png" |}]
      {| world := [Ok (PStr "rabbit")]; calls := []; stdout := [] |}
    = (Ok r, st')
    /\ (record_count (classified r) + List.length (unclassified r)
        = 2)%nat.
Proof.
  apply (proj1 (proj2 (proj2 (proj2 (proj2
           (every_image_one_entry _ scripted_run accepting_stdout)))
           (fun _ _ => eq_refl)))
           [{| read := Raise (OtherError "OSError" "closed file");
               content_type := Some "image/png" |};
            {| read := Ok []; content_type := Some "image/png" |}]
           {| world := [Ok (PStr "rabbit")]; calls := []; stdout := [] |}).
Defined.

(** A rabbit on a standard output that takes every line. *)
Lemma predict_single_outcome_witness :
  exists r st',
    predict _ scripted_run accepting_stdout
      {| read := Ok []; content_type := Some "image/png" |}
      {| world := [Ok (PStr "rabbit")]; calls := []; stdout := [] |}
    = (Ok r, st')
    /\ ((exists k rec, classified r = [(k, [rec])] /\ unclassified r = [])
        \/ (classified r = [] /\ unclassified r = [PDict []])).
Proof.
  apply (proj2 (predict_single_outcome _ scripted_run accepting_stdout
                  {| read := Ok []; content_type := Some "image/png" |}
                  {| world := [Ok (PStr "rabbit")]; calls := [];
                     stdout := [] |})
           (fun _ _ => eq_refl)).
Defined.



(** The three bytes of "foo" declared as image/png. *)
Lemma embedded_image_format_witness :
  free_of "/" "png" = true
  /\ base64_image {| read := Ok [x66; x6f; x6f]%byte;
                     content_type := Some "image/png" |}
     = Ok "data:image/png;base64,Zm9v".
Proof.
  split; [reflexivity|].
  apply (embedded_image_format (list (result pyval)) scripted_run
           accepting_stdout [x66; x6f; x6f]%byte "png" eq_refl).
Defined.



(** A rabbit is answered with one placeholder, after the species call alone. *)
Lemma other_species_unclassified_witness :
  fst (predict _ scripted_run accepting_stdout
         {| read := Ok []; content_type := Some "image/png" |}
         {| world := [Ok (PStr "Rabbit")]; calls := []; stdout := [] |})
  = Ok {| classified := []; unclassified := [PDict []] |}.
Proof.
  pose proof (proj2 (other_species_unclassified _ scripted_run
                       accepting_stdout)
                {| read := Ok []; content_type := Some "image/png" |}
                "data:image/png;base64," "rabbit" ([], [])
                {| world := [Ok (PStr "Rabbit")]; calls := [];
                   stdout := [] |}
                _ eq_refl eq_refl) as H.
  destruct H as [H _]; [discriminate | discriminate |].
  rewrite H. reflexivity.
Defined.





(** Two dogs that are both pugs share one list, in the order of the files. *)
Lemma same_breed_in_order_witness :
  fst (batch_predict _ scripted_run accepting_stdout
         [{| read := Ok [x66]%byte; content_type := Some "image/png" |};
          {| read := Ok [x6f]%byte; content_type := Some "image/jpeg" |}]
         {| world :=
              [Ok (PStr "dog");
               Ok (PList [PDict [("label", PStr "pug");
                                 ("confidence", PNum (9 # 10))]]);
               Ok (PStr " Dog");
               Ok (PList [PDict [("label", PStr "pug");
                                 ("confidence", PNum (7 # 10))]])];
            calls := []; stdout := [] |})
  = Ok {| classified :=
            [(PStr "pug",
              [{| confidence := PNum (9 # 10); breed := PStr "pug";
                  animal_type := "dog" |};
               {| confidence := PNum (7 # 10); breed := PStr "pug";
                  animal_type := "dog" |}])];
          unclassified := [] |}.
Proof.
  erewrite (proj1 (same_breed_in_order _ scripted_run accepting_stdout)
              {| read := Ok [x66]%byte; content_type := Some "image/png" |}
              {| read := Ok [x6f]%byte; content_type := Some "image/jpeg" |}
              "data:image/png;base64,Zg==" "data:image/jpeg;base64,bw=="
              "dog" "dog" (PStr "pug") (PNum (9 # 10)) (PNum (7 # 10))).
  - reflexivity.
  - reflexivity.
  - reflexivity.
  - reflexivity.
  - reflexivity.
  - reflexivity.
  - reflexivity.
  - reflexivity.
  - reflexivity.
  - reflexivity.
  - reflexivity.
Defined.

(* ================================================================== *)
(** ** The further properties on a scripted provider *)

(** A rabbit: [predict] answers, and the turn of the loop adds its
    placeholder. *)
Lemma batch_step_merges_predict_witness :
  exists r st',
    predict _ scripted_run accepting_stdout
      {| read := Ok []; content_type := Some "image/png" |}
      {| world := [Ok (PStr "rabbit")]; calls := []; stdout := [] |}
    = (Ok r, st')
    /\ ((exists k rec,
            r = {| classified := [(k, [rec])]; unclassified := [] |}
            /\ batch_step _ scripted_run accepting_stdout
                 {| read := Ok []; content_type := Some "image/png" |}
                 ([], [])
                 {| world := [Ok (PStr "rabbit")]; calls := [];
                    stdout := [] |}
               = (Ok (dict_add k rec [], []), st'))
        \/ (r = {| classified := []; unclassified := [PDict []] |}
            /\ batch_step _ scripted_run accepting_stdout
                 {| read := Ok []; content_type := Some "image/png" |}
                 ([], [])
                 {| world := [Ok (PStr "rabbit")]; calls := [];
                    stdout := [] |}
               = (Ok ([], [PDict []]), st'))).
Proof.
  apply (proj2 (proj2
           (batch_step_merges_predict _ scripted_run accepting_stdout
              {| read := Ok []; content_type := Some "image/png" |}
              ([], [])
              {| world := [Ok (PStr "rabbit")]; calls := [];
                 stdout := [] |}))
           (fun _ _ => eq_refl)).
Defined.

(** A rabbit: the result is in good order. *)
Lemma classified_well_formed_witness :
  exists r st',
    predict _ scripted_run accepting_stdout
      {| read := Ok []; content_type := Some "image/png" |}
      {| world := [Ok (PStr "rabbit")]; calls := []; stdout := [] |}
    = (Ok r, st')
    /\ well_formed (classified r)
    /\ Forall (eq (PDict [])) (unclassified r).
Proof.
  apply (proj2 (proj2 (proj2
           (classified_well_formed _ scripted_run accepting_stdout))
           (fun _ _ => eq_refl))
           {| read := Ok []; content_type := Some "image/png" |}
           {| world := [Ok (PStr "rabbit")]; calls := []; stdout := [] |}).
Defined.

(** A rabbit: nothing is printed for it. *)
Lemma errors_only_for_placeholders_witness :
  exists r st' lines,
    predict _ scripted_run accepting_stdout
      {| read := Ok []; content_type := Some "image/png" |}
      {| world := [Ok (PStr "rabbit")]; calls := []; stdout := [] |}
    = (Ok r, st')
    /\ stdout _ st' = ([] ++ lines)%list
    /\ (List.length lines <= List.length (unclassified r))%nat.
Proof.
  apply (proj2 (proj2 (proj2
           (errors_only_for_placeholders _ scripted_run accepting_stdout))
           (fun _ _ => eq_refl))
           {| read := Ok []; content_type := Some "image/png" |}
           {| world := [Ok (PStr "rabbit")]; calls := []; stdout := [] |}).
Defined.

(** An upload without content type, before a provider that would answer,
    on a standard output that takes the line. *)
Lemma no_image_no_call_witness :
  predict _ scripted_run accepting_stdout
    {| read := Ok []; content_type := None |}
    {| world := [Ok (PStr "dog")]; calls := []; stdout := [] |}
  = (Ok {| classified := []; unclassified := [PDict []] |},
     {| world := [Ok (PStr "dog")]; calls := [];
        stdout := [ImageError AttributeError] |}).
Proof.
  apply (no_image_no_call _ scripted_run accepting_stdout
           {| read := Ok []; content_type := None |} ([], [])
           {| world := [Ok (PStr "dog")]; calls := []; stdout := [] |}
           AttributeError).
  right. repeat split. now exists [].
Defined.

(** The answer " Cat " sends the image to the cat sub-model. *)
Lemma breed_asked_iff_exact_answer_witness :
  calls _ (snd (predict _ scripted_run accepting_stdout
                  {| read := Ok []; content_type := Some "image/png" |}
                  {| world := [Ok (PStr " Cat "); Ok PNone];
                     calls := []; stdout := [] |}))
  = [(blip2, species_input "data:image/png;base64,");
     (image_classification,
      breed_input "data:image/png;base64," "cat-breed-classification")].
Proof.
  apply (proj1 (breed_asked_iff_exact_answer _ scripted_run accepting_stdout
                  {| read := Ok []; content_type := Some "image/png" |}
                  ([], []) "data:image/png;base64," " Cat "
                  {| world := [Ok (PStr " Cat "); Ok PNone];
                     calls := []; stdout := [] |}
                  [Ok PNone] eq_refl eq_refl)
           (or_intror eq_refl)).
Defined.

(** A top candidate with an empty label. *)
Lemma bad_label_unclassified_witness :
  fst (predict _ scripted_run accepting_stdout
         {| read := Ok []; content_type := Some "image/png" |}
         {| world := [Ok (PStr "dog");
                      Ok (PList [PDict [("label", PStr "");
                                        ("confidence", PNum 1)]])];
            calls := []; stdout := [] |})
  = Ok {| classified := []; unclassified := [PDict []] |}.
Proof.
  erewrite (proj1 (proj1 (bad_label_unclassified _ scripted_run
                            accepting_stdout
                            {| read := Ok [];
                               content_type := Some "image/png" |}
                            ([], []) "data:image/png;base64," "dog"
                            {| bi_breed := PStr "";
                               bi_confidence := PNum 1 |}
                            {| world :=
                                 [Ok (PStr "dog");
                                  Ok (PList [PDict [("label", PStr "");
                                                    ("confidence",
                                                     PNum 1)]])];
                               calls := []; stdout := [] |}
                            _ _ eq_refl eq_refl eq_refl) eq_refl)).
  reflexivity.
Defined.

(** A breed answer that is a text, not a ranking, on a standard output that
    cannot take the message: the exception of the [print] comes out. *)
Lemma classify_breed_malformed_answer_witness :
  exists e,
    (e = TypeError \/ e = KeyError)
    /\ classify_breed _ scripted_run ascii_stdout "data:image/png;base64,"
         "dog"
         {| world := [Ok (PStr "pug")]; calls := []; stdout := [] |}
       = (Raise (OtherError "UnicodeEncodeError"
                   "'ascii' codec can't encode characters"),
          {| world := [];
             calls := [(image_classification,
                        breed_input "data:image/png;base64,"
                          "dog-breed-identification")];
             stdout := [] |}).
Proof.
  apply (classify_breed_malformed_answer _ scripted_run ascii_stdout
           "data:image/png;base64," "dog"
           {| world := [Ok (PStr "pug")]; calls := []; stdout := [] |}
           (PStr "pug") [] (or_introl eq_refl) eq_refl eq_refl).
  discriminate.
Defined.

(** A species call that times out, on a standard output that takes the
    line: the label returned is a normalized one. *)
Lemma label_normalized_witness :
  exists label st',
    classify_animal _ scripted_run accepting_stdout "data:image/png;base64,"
      {| world := [Raise (OtherError "ReplicateError" "timeout")];
         calls := []; stdout := [] |}
    = (Ok label, st')
    /\ ~ uncertain label
    /\ lower label = label
    /\ strip label = label.
Proof.
  apply (proj2 (label_normalized _ scripted_run accepting_stdout
                  "data:image/png;base64,"
                  {| world := [Raise (OtherError "ReplicateError" "timeout")];
                     calls := []; stdout := [] |})
           (fun _ _ => eq_refl)).
Defined.

(** A dog that is a pug, from the two answers to the result. *)
Lemma predict_classifies_witness :
  fst (predict _ scripted_run accepting_stdout
         {| read := Ok []; content_type := Some "image/png" |}
         {| world := [Ok (PStr " Dog");
                      Ok (PList [PDict [("label", PStr "pug");
                                        ("confidence", PNum (9 # 10))]])];
            calls := []; stdout := [] |})
  = Ok {| classified :=
            [(PStr "pug",
              [{| confidence := PNum (9 # 10); breed := PStr "pug";
                  animal_type := "dog" |}])];
          unclassified := [] |}.
Proof.
  rewrite (predict_classifies _ scripted_run accepting_stdout
             {| read := Ok []; content_type := Some "image/png" |}
             "data:image/png;base64," " Dog"
             {| world := [Ok (PStr " Dog");
                          Ok (PList [PDict [("label", PStr "pug");
                                            ("confidence",
                                             PNum (9 # 10))]])];
                calls := []; stdout := [] |}
             [Ok (PList [PDict [("label", PStr "pug");
                                ("confidence", PNum (9 # 10))]])]
             []
             [("label", PStr "pug"); ("confidence", PNum (9 # 10))] []
             (PStr "pug") (PNum (9 # 10))
             eq_refl eq_refl (or_introl eq_refl) eq_refl eq_refl eq_refl
             eq_refl eq_refl).
  reflexivity.
Defined.
